(** * Safe Space: the confidence normaliser, agreement fusion, serial-port
      discovery and the telemetry log of [SafeSpace_final.py]

    Conventions of the embedding.
    - Numbers come in two readings.  In the first a Python [float] is an
      exact rational ([Q], with [==] for [Qeq]): it carries the statements
      that rounding cannot disturb.  In the second, module [B64], the fusion
      is computed on binary64 numbers operation by operation, as the
      interpreter does: it decides what the returned value is to the last
      bit.
    - A Python [str] is a [string] holding its UTF-8 encoding.  [strip]
      removes every character Python counts as white space; [lower] acts on
      the ASCII letters, which is enough for the two tests made on a
      lowered label.
    - The global [sensor_log] dict is a [gmap string json]; the order in which
      a dict displays its keys is not modelled.
    - The generator [auto_detect_esp32_port] is the finite trace of the steps
      it performs (its yields and its serial operations) together with the
      value carried by its [return]. *)

From Stdlib Require Import QArith Qabs Qminmax Lqa Lia List Permutation Ascii String.
From Stdlib Require Import Floats.
From Stdlib Require Uint63.
From stdpp Require Import gmap strings list fin_maps.
Import ListNotations.

Local Open Scope string_scope.

(** ** Text helpers *)

Module Text.

(** [c.lower()] for one byte: [A-Z] moves to [a-z], anything else stays. *)
Definition lower_ascii (c : ascii) : ascii :=
  let n := nat_of_ascii c in
  if (65 <=? n)%nat && (n <=? 90)%nat then ascii_of_nat (n + 32) else c.

(** [s.lower()]. *)
Fixpoint lower (s : string) : string :=
  match s with
  | EmptyString => EmptyString
  | String c s' => String (lower_ascii c) (lower s')
  end.

(** [needle in hay] on strings: [needle] is a prefix of some suffix. *)
Fixpoint contains (needle hay : string) : bool :=
  String.prefix needle hay ||
  match hay with
  | EmptyString => false
  | String _ hay' => contains needle hay'
  end.

(** White space is what [str.isspace] accepts, as [str.strip()] removes it.
    A [str] is held as its UTF-8 encoding, so a white-space character is
    one, two or three bytes.  One byte: tab, LF, VT, FF, CR, the separators
    0x1c-0x1f and the space. *)
Definition is_space (c : ascii) : bool :=
  let n := nat_of_ascii c in
  ((9 <=? n)%nat && (n <=? 13)%nat) || ((28 <=? n)%nat && (n <=? 32)%nat).

(** Two bytes: U+0085 (C2 85) and U+00A0 (C2 A0). *)
Definition is_space2 (b1 b2 : ascii) : bool :=
  let n1 := nat_of_ascii b1 in
  let n2 := nat_of_ascii b2 in
  (n1 =? 194)%nat && ((n2 =? 133)%nat || (n2 =? 160)%nat).

(** Three bytes: U+1680 (E1 9A 80); U+2000-U+200A, U+2028, U+2029 and
    U+202F (E2 80 80-8A, A8, A9, AF); U+205F (E2 81 9F); U+3000
    (E3 80 80). *)
Definition is_space3 (b1 b2 b3 : ascii) : bool :=
  let n1 := nat_of_ascii b1 in
  let n2 := nat_of_ascii b2 in
  let n3 := nat_of_ascii b3 in
  ((n1 =? 225)%nat && (n2 =? 154)%nat && (n3 =? 128)%nat) ||
  ((n1 =? 226)%nat && (n2 =? 128)%nat &&
   (((128 <=? n3)%nat && (n3 <=? 138)%nat) ||
    (n3 =? 168)%nat || (n3 =? 169)%nat || (n3 =? 175)%nat)) ||
  ((n1 =? 226)%nat && (n2 =? 129)%nat && (n3 =? 159)%nat) ||
  ((n1 =? 227)%nat && (n2 =? 128)%nat && (n3 =? 128)%nat).

(** Dropping the white-space characters at the head of a string.  With
    [backwards] the string is read from its end, each character coming
    with its last byte first. *)
Fixpoint drop_spaces (backwards : bool) (s : string) : string :=
  match s with
  | EmptyString => EmptyString
  | String c1 s1 =>
      if is_space c1 then drop_spaces backwards s1
      else
        match s1 with
        | EmptyString => s
        | String c2 s2 =>
            if (if backwards then is_space2 c2 c1 else is_space2 c1 c2)
            then drop_spaces backwards s2
            else
              match s2 with
              | EmptyString => s
              | String c3 s3 =>
                  if (if backwards then is_space3 c3 c2 c1
                      else is_space3 c1 c2 c3)
                  then drop_spaces backwards s3
                  else s
              end
        end
  end.

Fixpoint reverse_onto (s acc : string) : string :=
  match s with
  | EmptyString => acc
  | String c s' => reverse_onto s' (String c acc)
  end.

Definition reverse (s : string) : string := reverse_onto s EmptyString.

Definition lstrip (s : string) : string := drop_spaces false s.

Definition rstrip (s : string) : string :=
  reverse (drop_spaces true (reverse s)).

(** [s.strip()]. *)
Definition strip (s : string) : string := rstrip (lstrip s).

(** The line feed of an f-string's [\n]. *)
Definition nl : string := String (ascii_of_nat 10) EmptyString.

(** The no-break space U+00A0, as text. *)
Definition nbsp : string :=
  String (ascii_of_nat 194) (String (ascii_of_nat 160) EmptyString).

End Text.

(** ** Values handed to [float(...)] *)

(** What [get_stress_confidence] receives as [confidence], as far as its
    [try] is concerned: something [float()] converts, or something on which
    it raises [ValueError] or [TypeError], the two exceptions the function
    catches. *)
Inductive pyobj : Type :=
| PyNum (q : Q)
| PyOther (repr : string).

Definition float_of (o : pyobj) : option Q :=
  match o with
  | PyNum q => Some q
  | PyOther _ => None
  end.

(** ** The confidence normaliser *)

(** [get_stress_confidence(label, confidence)]. *)
Definition get_stress_confidence (label : string) (confidence : pyobj) : Q :=
  if Text.contains "error" (Text.lower label) then 1 # 2
  else
    if String.eqb (Text.lower label) "stressed" then
      match float_of confidence with
      | Some c => c
      | None => 1 # 2
      end
    else
      match float_of confidence with
      | Some c => 1 - c
      | None => 1 # 2
      end.

(** Any argument at all: one of the above, or one on which [float()]
    raises an exception the function does not catch ([OverflowError] for
    the integer [10**400]). *)
Inductive pyarg : Type :=
| Handled (o : pyobj)
| Unhandled (exception : string).

(** How a call of a function ends: it raises (with the exception) or it
    returns. *)
Inductive attempt (A : Type) : Type :=
| Raised (msg : string)
| Returned (a : A).
Arguments Raised {A} msg.
Arguments Returned {A} a.

(** A call [get_stress_confidence(label, confidence)] on any argument.
    With "error" in the label [float()] is not reached; otherwise an
    exception that is not caught leaves the function. *)
Definition get_stress_confidence_call (label : string) (confidence : pyarg)
  : attempt Q :=
  match confidence with
  | Handled o => Returned (get_stress_confidence label o)
  | Unhandled exception =>
      if Text.contains "error" (Text.lower label) then Returned (1 # 2)
      else Raised exception
  end.

(** ** The four predictors, with inference left to the environment *)

(** The body of a predictor's [try] is an [attempt]: it raised (with
    [str(e)]) or it went through with a value.  The models put out
    single-precision numbers; here they are the rationals they stand for,
    and [1 - prediction] is the exact difference, not its rounding. *)

Definition half : pyobj := PyNum (1 # 2).

(** [predict_facial]: [run] is the outcome of reading the image and running
    the model, as [(class_id, prediction[0][class_id])]. *)
Definition predict_facial (model_loaded : bool) (photo_path : option string)
    (run : attempt (nat * Q)) : string * pyobj :=
  if negb model_loaded then ("Error: Facial model not loaded. 🚫", half)
  else
    match photo_path with
    | None => ("Error: No facial image provided. 📸", half)
    | Some _ =>
        match run with
        | Returned (class_id, p) =>
            ((if Nat.eqb class_id 1 then "Stressed" else "Not Stressed"), PyNum p)
        | Raised e => ("Error processing facial image: " ++ e ++ " 🚨", half)
        end
    end.

(** [predict_audio]: [run] is the scalar the audio model predicts. *)
Definition predict_audio (model_loaded : bool) (audio_file : option string)
    (run : attempt Q) : string * pyobj :=
  if negb model_loaded then ("Error: Audio model not loaded. 🚫", half)
  else
    match audio_file with
    | None => ("Error: No audio file provided. 🎙️", half)
    | Some _ =>
        match run with
        | Returned prediction =>
            if Qle_bool (1 # 2) prediction
            then ("Stressed", PyNum prediction)
            else ("Not Stressed", PyNum (1 - prediction))
        | Raised e => ("Error processing audio: " ++ e ++ " 🚨", half)
        end
    end.

(** [predict_dass21]: [all_answered] is [all(r is not None for r in
    q_responses)]; [run] is [pred_prob]. *)
Definition predict_dass21 (model_and_scaler_loaded : bool)
    (all_answered : bool) (run : attempt Q) : string * pyobj :=
  if negb model_and_scaler_loaded
  then ("Error: DASS-21 model/scaler not loaded. 🚫", half)
  else
    if negb all_answered
    then ("Error: All 21 DASS-21 questions must be answered. 📝", half)
    else
      match run with
      | Returned pred_prob =>
          ((if Qle_bool (1 # 2) pred_prob then "Stressed" else "Not Stressed"),
           PyNum pred_prob)
      | Raised e => ("Error with DASS-21 input: " ++ e ++ " 🚨", half)
      end.

(** How the [try] of [predict_physio_from_line] ends. *)
Inductive physio_run : Type :=
| PhysioFormatError (exception_name : string)
| PhysioOtherError
| PhysioPrediction (prediction : Q).

(** [predict_physio_from_line(line)]. *)
Definition predict_physio_from_line (model_and_scaler_loaded : bool)
    (line : string) (run : physio_run) : string * pyobj :=
  if negb model_and_scaler_loaded
  then ("Error: Physio model/scaler not loaded. 🚫", half)
  else
    if String.eqb line "" then ("Physio: No data available from ESP32. ⏳", half)
    else
      match run with
      | PhysioPrediction prediction =>
          if Qle_bool (1 # 2) prediction
          then ("Stressed", PyNum prediction)
          else ("Not Stressed", PyNum (1 - prediction))
      | PhysioFormatError name =>
          ("Physio: Data format error (" ++ name ++ "). ⚠️", half)
      | PhysioOtherError => ("Physio: Prediction error. 🚨", half)
      end.

(** A modality result is whatever one of the four predictors returns. *)
Inductive modality_result : string * pyobj -> Prop :=
| mr_audio loaded file run : modality_result (predict_audio loaded file run)
| mr_facial loaded photo run : modality_result (predict_facial loaded photo run)
| mr_physio loaded line run :
    modality_result (predict_physio_from_line loaded line run)
| mr_survey loaded answered run :
    modality_result (predict_dass21 loaded answered run).

(** The three labels of the data model, read off a predictor's label: the
    two class names, and everything else a predictor says when it could
    not classify. *)
Inductive Label : Type := Stressed | NotStressed | Unavailable.

Definition label_of (label : string) : Label :=
  if String.eqb label "Stressed" then Stressed
  else if String.eqb label "Not Stressed" then NotStressed
  else Unavailable.

(** ** Agreement fusion *)

(** Python's [sum]: a left fold from [0]. *)
Definition py_sum (l : list Q) : Q := fold_left Qplus l 0%Q.

Definition Qlt_bool (a b : Q) : bool := negb (Qle_bool b a).

(** One entry of [agree_scores]:
    [sum(1 - abs(v[i] - v[j]) for j in range(M) if i != j) / (M - 1)]. *)
Definition agree_score (v : list Q) (i : nat) : Q :=
  py_sum
    (map (fun j => (1 - Qabs (nth i v 0 - nth j v 0))%Q)
         (List.filter (fun j => negb (Nat.eqb i j)) (seq 0 (length v))))
  / inject_Z (Z.of_nat (length v) - 1).

Definition agree_scores (v : list Q) : list Q :=
  map (agree_score v) (seq 0 (length v)).

(** [np.mean]. *)
Definition mean (v : list Q) : Q := py_sum v / inject_Z (Z.of_nat (length v)).

(** [np.sum(np.array(a) * np.array(b))]. *)
Definition dot (a b : list Q) : Q :=
  py_sum (map (fun ab => (fst ab * snd ab)%Q) (combine a b)).

(** The comprehension [[c for c in confidences if c != 0.5]]. *)
Definition valid_confidences (confidences : list Q) : list Q :=
  List.filter (fun c => negb (Qeq_bool c (1 # 2)%Q)) confidences.

(** [agreement_fusion(confidences)]. *)
Definition agreement_fusion (confidences : list Q) : Q :=
  let valid := valid_confidences confidences in
  match valid with
  | [] => (1 # 2)%Q
  | [c] => c
  | _ =>
      let sum_agree := py_sum (agree_scores valid) in
      if Qlt_bool sum_agree (1 # 1000000000)%Q then mean valid
      else dot (agree_scores valid) valid / sum_agree
  end.

(** The numeric core of [fused_stress_prediction]: the four results are
    normalised in the order audio, facial, physiological, survey, fused, and
    labelled. *)
Definition fused_score (results : list (string * pyobj)) : Q :=
  agreement_fusion (map (fun r => get_stress_confidence (fst r) (snd r)) results).

Definition overall_label (score : Q) : string :=
  if Qle_bool (1 # 2)%Q score then "Stressed" else "Not Stressed".

(** Two quantities the proofs about [agree_scores] are phrased with: how
    close [a] is to all of [v], itself among them, and the agreement score
    this gives a member of [v]. *)
Definition closeness (v : list Q) (a : Q) : Q :=
  py_sum (map (fun b => (1 - Qabs (a - b))%Q) v).

Definition weight (v : list Q) (a : Q) : Q :=
  (closeness v a - 1) / inject_Z (Z.of_nat (length v) - 1).

(** ** Agreement fusion on binary64 numbers *)

Module B64.

Local Open Scope float_scope.

(** The built-in [sum] adds floats one after the other up to Python 3.11
    and with Neumaier's compensation from Python 3.12 on. *)
Inductive summation : Type :=
| Sequential
| Compensated.

Definition sequential_sum (l : list float) : float :=
  fold_left PrimFloat.add l 0.

(** One step of the compensated sum: the running sum and the running
    compensation. *)
Definition compensate (acc : float * float) (x : float) : float * float :=
  let '(s, c) := acc in
  let t := s + x in
  (t, c + (if abs x <=? abs s then (s - t) + x else (x - t) + s)).

Definition is_finite (x : float) : bool := abs x <? infinity.

Definition compensated_sum (l : list float) : float :=
  let '(s, c) := fold_left compensate l (0, 0) in
  if negb (c =? 0) && is_finite c then s + c else s.

Definition py_sum (m : summation) (l : list float) : float :=
  match m with
  | Sequential => sequential_sum l
  | Compensated => compensated_sum l
  end.

(** NumPy adds fewer than eight numbers one after the other. *)
Definition np_sum (l : list float) : float := sequential_sum l.

(** The float of a small integer, as [M - 1] and [M] become in a
    division. *)
Definition of_nat (n : nat) : float :=
  of_uint63 (Uint63.of_Z (Z.of_nat n)).

Definition valid_confidences (confidences : list float) : list float :=
  List.filter (fun c => negb (c =? 0x1p-1)) confidences.

Definition agree_score (m : summation) (v : list float) (i : nat) : float :=
  py_sum m
    (map (fun j => 1 - abs (nth i v 0 - nth j v 0))
         (List.filter (fun j => negb (Nat.eqb i j)) (seq 0 (length v))))
  / of_nat (length v - 1).

Definition agree_scores (m : summation) (v : list float) : list float :=
  map (agree_score m v) (seq 0 (length v)).

(** [agreement_fusion(confidences)], every operation rounded as binary64
    rounds it; [0x1.12e0be826d695p-30] is the float [1e-9]. *)
Definition agreement_fusion (m : summation) (confidences : list float)
  : float :=
  let valid := valid_confidences confidences in
  match valid with
  | [] => 0x1p-1
  | [c] => c
  | _ =>
      let sum_agree := py_sum m (agree_scores m valid) in
      if sum_agree <? 0x1.12e0be826d695p-30
      then np_sum valid / of_nat (length valid)
      else np_sum (map (fun ab => fst ab * snd ab)
                       (combine (agree_scores m valid) valid))
           / sum_agree
  end.

(** [fused_score >= 0.5], the test behind the overall label. *)
Definition overall_label (score : float) : string :=
  if 0x1p-1 <=? score then "Stressed" else "Not Stressed".

Definition f02 : float := 0x1.999999999999ap-3.
Definition f04 : float := 0x1.999999999999ap-2.
Definition f06 : float := 0x1.3333333333333p-1.
Definition f08 : float := 0x1.999999999999ap-1.

End B64.

(** ** Serial-port discovery *)

Module Discovery.

(** What the world does when a port is probed. *)
Inductive port_behaviour : Type :=
| OpenRaises                 (* serial.Serial(...) raises *)
| WriteRaises                (* the port opens, ser.write raises *)
| ReadRaises                 (* ser.readline() or the decoding raises *)
| Answers (text : string).   (* the decoded line; empty on a timeout *)

(** One step of the generator: a [yield], or an operation on a port with
    whether it went through. *)
Inductive step : Type :=
| Yield (message : string) (port : option string)
| SerialOpen (port : string) (ok : bool)
| Sleep
| SerialWrite (port : string) (ok : bool)
| SerialReadline (port : string) (ok : bool)
| SerialClose (port : string).

Definition testing (port : string) : step :=
  Yield ("Testing port: " ++ port ++ "...") None.
Definition found (port : string) : step :=
  Yield ("✅ ESP32 found on " ++ port ++ "!") (Some port).
Definition skipping (port : string) : step :=
  Yield ("Error on " ++ port ++ ". Skipping.") None.
Definition not_found : step :=
  Yield "❌ Auto-detection failed. Please select the port manually." None.

Definition answers_pong (b : port_behaviour) : bool :=
  match b with
  | Answers text => String.eqb (Text.strip text) "PONG"
  | _ => false
  end.

Definition raises (b : port_behaviour) : bool :=
  match b with
  | Answers _ => false
  | _ => true
  end.

(** The body of the [try] for one port, up to the point where it leaves
    the [try]: by an exception, or after [ser.close()]. *)
Definition handshake (world : string -> port_behaviour) (port : string)
  : list step :=
  match world port with
  | OpenRaises => [SerialOpen port false]
  | WriteRaises => [SerialOpen port true; Sleep; SerialWrite port false]
  | ReadRaises =>
      [SerialOpen port true; Sleep; SerialWrite port true;
       SerialReadline port false]
  | Answers _ =>
      [SerialOpen port true; Sleep; SerialWrite port true;
       SerialReadline port true; SerialClose port]
  end.

(** The [for] loop, and the [yield] after it. *)
Fixpoint probe_loop (world : string -> port_behaviour) (ports : list string)
  : list step :=
  match ports with
  | [] => [not_found]
  | port :: rest =>
      testing port :: handshake world port ++
      (if raises (world port) then skipping port :: probe_loop world rest
       else if answers_pong (world port) then [found port]
       else probe_loop world rest)
  end.

(** A finished run of a generator: its steps, and the value of its
    [return] ([None] for a bare [return] or falling off the end). *)
Record run : Type := {
  steps : list step;
  returned : option (string * option string)
}.

(** [auto_detect_esp32_port()], with [ports] the result of
    [list_serial_ports()]. *)
Definition auto_detect_esp32_port (world : string -> port_behaviour)
    (ports : list string) : run :=
  match ports with
  | [] => {| steps := []; returned := Some ("No serial ports found.", None) |}
  | _ => {| steps := probe_loop world ports; returned := None |}
  end.

(** What a consumer iterating the generator sees. *)
Fixpoint events (l : list step) : list (string * option string) :=
  match l with
  | [] => []
  | Yield m p :: l' => (m, p) :: events l'
  | _ :: l' => events l'
  end.

(** The ports a sequence of steps leaves open. *)
Fixpoint open_after (opened : list string) (l : list step) : list string :=
  match l with
  | [] => opened
  | SerialOpen p true :: l' => open_after (opened ++ [p]) l'
  | SerialClose p :: l' =>
      open_after (List.filter (fun q => negb (String.eqb p q)) opened) l'
  | _ :: l' => open_after opened l'
  end.

(** The ports on which a sequence of steps attempts an open. *)
Fixpoint probed (l : list step) : list string :=
  match l with
  | [] => []
  | SerialOpen p _ :: l' => p :: probed l'
  | _ :: l' => probed l'
  end.

(** Three worlds for the examples.  In each, port B is the ESP32.  Port A
    times out without a reply in the first, cannot be opened in the second,
    and opens but fails on the write in the third; every other port is
    silent. *)
Definition esp32_on_B (a : port_behaviour) (port : string) : port_behaviour :=
  if String.eqb port "B" then Answers ("PONG" ++ Text.nl)
  else if String.eqb port "A" then a
  else Answers "".

Definition silent_A : string -> port_behaviour := esp32_on_B (Answers "").
Definition busy_A : string -> port_behaviour := esp32_on_B OpenRaises.
Definition stuck_A : string -> port_behaviour := esp32_on_B WriteRaises.

End Discovery.

(** ** The device session and its log *)

Module Session.

(** A parsed JSON document. *)
#[local] Unset Elimination Schemes.
Inductive json : Type :=
| JNull
| JBool (b : bool)
| JNum (q : Q)
| JStr (s : string)
| JArr (items : list json)
| JObj (fields : list (string * json)).
#[local] Set Elimination Schemes.

(** How [json.loads(line)] ends. *)
Inductive loads_outcome : Type :=
| Loaded (parsed_data : json)
| JSONDecodeError
| LoadsRaised (msg : string).

(** How [bt_serial.readline().decode('utf-8', errors='replace')] ends. *)
Inductive read_outcome : Type :=
| ReadRaised (msg : string)
| ReadText (text : string).

(** The module's globals; [bt_serial] is [None] or a handle with its
    [is_open] flag. *)
Record state : Type := {
  sensor_log : gmap string json;
  latest_line : string;
  bt_serial : option bool
}.

Definition initial : state :=
  {| sensor_log := ∅; latest_line := ""; bt_serial := None |}.

(** [connect_to_port(port_name)]; [open_error] is the [SerialException]
    of [serial.Serial(...)], if any.  An exception of another class is
    [connect_to_port_escaping] below. *)
Definition connect_to_port (st : state) (port_name : string)
    (open_error : option string) : string * state :=
  if String.eqb port_name "" then
    ("[Info] Port disconnected. 🚫",
     {| sensor_log := sensor_log st; latest_line := latest_line st;
        bt_serial := None |})
  else
    match open_error with
    | None =>
        ("[✓] Connected to " ++ port_name ++ " successfully!",
         {| sensor_log := sensor_log st; latest_line := latest_line st;
            bt_serial := Some true |})
    | Some e =>
        ("[X] ERROR: Could not open " ++ port_name ++
         ". Is the device available? Error: " ++ e,
         {| sensor_log := sensor_log st; latest_line := latest_line st;
            bt_serial := None |})
    end.

(** [connect_to_port(port_name)] when [serial.Serial(...)] raises something
    that is not a [SerialException] ([ValueError] for a name with a NUL in
    it): the exception leaves the function, after the old handle was closed
    and before [bt_serial] is assigned again. *)
Definition connect_to_port_escaping (st : state) : state :=
  {| sensor_log := sensor_log st; latest_line := latest_line st;
     bt_serial := match bt_serial st with
                  | Some _ => Some false
                  | None => None
                  end |}.

Section Scan.

(** Python's [json.loads], a library function. *)
Variable json_loads : string -> loads_outcome.

(** [scan_bt_data()]: [rd] is what the serial line delivers and [now]
    the formatted [datetime.now()].  The second component is the
    state of the globals after the call; the function's own second
    result is its [sensor_log]. *)
Definition scan_bt_data (st : state) (rd : read_outcome) (now : string)
  : string * state :=
  match bt_serial st with
  | Some true =>
      match rd with
      | ReadRaised e => ("Error reading from Bluetooth: " ++ e ++ " ❌", st)
      | ReadText text =>
          let line := Text.strip text in
          if String.eqb line "" then
            ("No new data received from ESP32. (Check connection/transmission) ⏳",
             st)
          else
            match json_loads line with
            | Loaded parsed_data =>
                ("Time: " ++ now ++ Text.nl ++ "Data: " ++ line ++ " ✅",
                 {| sensor_log := <[now := parsed_data]> (sensor_log st);
                    latest_line := line;
                    bt_serial := bt_serial st |})
            | JSONDecodeError =>
                ("Time: " ++ now ++ Text.nl ++ "Invalid Data Format: " ++
                 line ++ " ⚠️", st)
            | LoadsRaised e =>
                ("Error reading from Bluetooth: " ++ e ++ " ❌", st)
            end
      end
  | _ => ("Bluetooth not connected. Select a port first. 🚫", st)
  end.

(** One user action on the session. *)
Inductive action : Type :=
| Scan (rd : read_outcome) (now : string)
| Connect (port_name : string) (open_error : option string)
| ConnectEscaping (port_name : string).

Definition perform (st : state) (a : action) : state :=
  match a with
  | Scan rd now => snd (scan_bt_data st rd now)
  | Connect p e => snd (connect_to_port st p e)
  | ConnectEscaping p =>
      if String.eqb p "" then snd (connect_to_port st p None)
      else connect_to_port_escaping st
  end.

Definition perform_all (st : state) (l : list action) : state :=
  fold_left perform l st.

End Scan.

(** A stand-in for [json.loads] that knows the documents of the examples:
    the integers [1] and [2] and the empty object. *)
Definition sample_loads (line : string) : loads_outcome :=
  if String.eqb line "1" then Loaded (JNum 1)
  else if String.eqb line "2" then Loaded (JNum 2)
  else if String.eqb line "{}" then Loaded (JObj [])
  else JSONDecodeError.

(** A session bound to a port, before any reading. *)
Definition bound : state := snd (connect_to_port initial "COM3" None).

(** Whether an action is a scan stamped [now]. *)
Definition stamped (now : string) (a : action) : Prop :=
  match a with
  | Scan _ now' => now' = now
  | Connect _ _ => False
  | ConnectEscaping _ => False
  end.

(** A run of opening brackets. *)
Fixpoint brackets (n : nat) : string :=
  match n with
  | O => EmptyString
  | S n' => String "["%char (brackets n')
  end.

(** [json.loads] on a line nested deeper than the interpreter recurses:
    it gives up with a [RecursionError] before it can tell that the line
    is not JSON. *)
Definition deep_loads (line : string) : loads_outcome :=
  if String.eqb line (brackets 5000)
  then LoadsRaised
         "maximum recursion depth exceeded while decoding a JSON array from a unicode string"
  else sample_loads line.

End Session.

(** ** Notions used to describe whole runs *)

(** Whether a port is left without its [ser.close()]: the port opened
    and a later operation raised. *)
Definition leaks (b : Discovery.port_behaviour) : bool :=
  match b with
  | Discovery.WriteRaises | Discovery.ReadRaises => true
  | _ => false
  end.

(** Port A is the ESP32 and pads its reply with a no-break space. *)
Definition padded_A : string -> Discovery.port_behaviour :=
  Discovery.esp32_on_B
    (Discovery.Answers ("PONG" ++ Text.nbsp ++ Text.nl)).

(** The first port of the list that answers PONG, if any. *)
Definition first_pong (world : string -> Discovery.port_behaviour)
    (ports : list string) : option string :=
  List.find (fun p => Discovery.answers_pong (world p)) ports.

(** ** Fusion with the divisions checked *)

(** A division that reports a zero divisor instead of going on:
    [ZeroDivisionError] for Python numbers, [inf] or [nan] for NumPy's. *)
Definition py_div (a b : Q) : option Q :=
  if Qeq_bool b 0 then None else Some (a / b)%Q.

(** The results of a comprehension whose items may fail. *)
Fixpoint collect (l : list (option Q)) : option (list Q) :=
  match l with
  | [] => Some []
  | o :: l' =>
      match o, collect l' with
      | Some x, Some xs => Some (x :: xs)
      | _, _ => None
      end
  end.

Definition agree_score_checked (v : list Q) (i : nat) : option Q :=
  py_div
    (py_sum
       (map (fun j => (1 - Qabs (nth i v 0 - nth j v 0))%Q)
            (List.filter (fun j => negb (Nat.eqb i j)) (seq 0 (length v)))))
    (inject_Z (Z.of_nat (length v) - 1)).

(** [agreement_fusion] again, every division being a [py_div]. *)
Definition agreement_fusion_checked (confidences : list Q) : option Q :=
  let valid := valid_confidences confidences in
  match valid with
  | [] => Some (1 # 2)%Q
  | [c] => Some c
  | _ =>
      match collect (map (agree_score_checked valid) (seq 0 (length valid))) with
      | None => None
      | Some scores =>
          let sum_agree := py_sum scores in
          if Qlt_bool sum_agree (1 # 1000000000)%Q
          then py_div (py_sum valid) (inject_Z (Z.of_nat (length valid)))
          else py_div (dot scores valid) sum_agree
      end
  end.

(** ** Start-up and the fusion request *)

(** [load_models()]: each argument is how one [load_model] call ends, in
    the order facial, audio, DASS-21, physiological.  The four calls share
    one [try]: a single failure gives [None] four times. *)
Definition load_models {M : Type} (facial audio dass21 physio : attempt M)
  : option M * option M * option M * option M :=
  match facial, audio, dass21, physio with
  | Returned f, Returned a, Returned d, Returned p =>
      (Some f, Some a, Some d, Some p)
  | _, _, _, _ => (None, None, None, None)
  end.

(** [load_scalers()], for the DASS-21 and the physiological scaler. *)
Definition load_scalers {S : Type} (dass21 physio : attempt S)
  : option S * option S :=
  match dass21, physio with
  | Returned d, Returned p => (Some d, Some p)
  | _, _ => (None, None)
  end.

(** [x is not None]. *)
Definition loaded {A : Type} (x : option A) : bool :=
  match x with
  | Some _ => true
  | None => false
  end.

(** What a fusion request brings: the inputs the user gave and, for each
    classifier, how its inference would end. *)
Record request : Type := {
  audio_file : option string;
  audio_run : attempt Q;
  photo_path : option string;
  facial_run : attempt (nat * Q);
  physio_outcome : physio_run;
  survey_answered : bool;
  survey_run : attempt Q
}.

(** The four calls at the head of [fused_stress_prediction], in its order:
    audio, facial, physiological (on the global [latest_line]), survey. *)
Definition modality_results {M S : Type}
    (models : option M * option M * option M * option M)
    (scalers : option S * option S) (latest : string) (rq : request)
  : list (string * pyobj) :=
  let '(facial_model, audio_model, dass21_model, physio_model) := models in
  let '(dass21_scaler, physio_scaler) := scalers in
  [predict_audio (loaded audio_model) (audio_file rq) (audio_run rq);
   predict_facial (loaded facial_model) (photo_path rq) (facial_run rq);
   predict_physio_from_line (loaded physio_model && loaded physio_scaler)
     latest (physio_outcome rq);
   predict_dass21 (loaded dass21_model && loaded dass21_scaler)
     (survey_answered rq) (survey_run rq)].

(** The score and the label [fused_stress_prediction] reports. *)
Definition fused_stress_prediction {M S : Type}
    (models : option M * option M * option M * option M)
    (scalers : option S * option S) (latest : string) (rq : request)
  : Q * string :=
  let fused := fused_score (modality_results models scalers latest rq) in
  (fused, overall_label fused).

(** ** The two globals of a session, taken together *)

(** The log is empty exactly as long as there is no latest line, and a
    latest line is the text of a reading held in the log. *)
Definition consistent (json_loads : string -> Session.loads_outcome)
    (st : Session.state) : Prop :=
  (Session.sensor_log st = ∅ <-> Session.latest_line st = "") /\
  (Session.latest_line st <> "" ->
   exists k d, json_loads (Session.latest_line st) = Session.Loaded d /\
               Session.sensor_log st !! k = Some d).

(** How many of the actions are scans. *)
Definition scans (l : list Session.action) : nat :=
  length (List.filter
            (fun a => match a with Session.Scan _ _ => true | _ => false end) l).

(** ** The settle delay *)

(** How many times a sequence of steps waits for a port to settle. *)
Definition sleeps (l : list Discovery.step) : nat :=
  length (List.filter
            (fun s => match s with Discovery.Sleep => true | _ => false end) l).

(** Whether [serial.Serial(...)] returns. *)
Definition opens (b : Discovery.port_behaviour) : bool :=
  match b with
  | Discovery.OpenRaises => false
  | _ => true
  end.

(** * Properties *)

(** ** Text *)

Lemma prefix_app_l (n a b : string) :
  String.prefix n a = true -> String.prefix n (a ++ b) = true.
Proof.
  revert a; induction n as [|c n IH]; intros a H.
  { destruct (a ++ b); reflexivity. }
  destruct a as [|d a]; [discriminate|]. simpl in *.
  destruct (Ascii.ascii_dec c d); [auto | discriminate].
Qed.

Lemma contains_cons (n : string) (d : ascii) (a : string) :
  Text.contains n (String d a)
  = String.prefix n (String d a) || Text.contains n a.
Proof. reflexivity. Qed.

Lemma contains_app_l (n a b : string) :
  Text.contains n a = true -> Text.contains n (a ++ b) = true.
Proof.
  induction a as [|d a IH]; intros H.
  - destruct n; [|discriminate]. destruct b; reflexivity.
  - change (String d a ++ b) with (String d (a ++ b)).
    rewrite contains_cons in *. apply orb_true_iff in H as [H|H].
    + change (String d (a ++ b)) with (String d a ++ b).
      rewrite (prefix_app_l _ _ _ H). reflexivity.
    + rewrite (IH H). apply orb_true_r.
Qed.

Lemma lower_app (a b : string) :
  Text.lower (a ++ b) = Text.lower a ++ Text.lower b.
Proof.
  induction a as [|c a IH]; [reflexivity|].
  change (Text.lower (String c (a ++ b))
          = String (Text.lower_ascii c) (Text.lower a ++ Text.lower b)).
  cbn [Text.lower]. now rewrite IH.
Qed.

(** A label that starts with text containing ["error"] once lowered is
    recognised whatever follows. *)
Lemma error_label_app (a b : string) :
  Text.contains "error" (Text.lower a) = true ->
  Text.contains "error" (Text.lower (a ++ b)) = true.
Proof. intros H. rewrite lower_app. now apply contains_app_l. Qed.

(** The reply of the firmware's [Serial.println("PONG")], a timeout and a
    line of blanks, as [strip] leaves them. *)
Example strip_println :
  Text.strip ("PONG" ++ String (ascii_of_nat 13) Text.nl) = "PONG".
Proof. reflexivity. Qed.

Example strip_blank : Text.strip ("  " ++ Text.nl) = "" /\ Text.strip "" = "".
Proof. split; reflexivity. Qed.

Example strip_inner : Text.strip " not json " = "not json".
Proof. reflexivity. Qed.

(** White space beyond ASCII goes as well: a no-break space before the line
    end, an ideographic space (E3 80 80) in front. *)
Example strip_unicode_space :
  Text.strip ("PONG" ++ Text.nbsp ++ Text.nl) = "PONG"
  /\ Text.strip (String (ascii_of_nat 227)
                   (String (ascii_of_nat 128) (String (ascii_of_nat 128) "2"))
                 ++ Text.nbsp ++ Text.nl) = "2".
Proof. split; reflexivity. Qed.

Example lower_label :
  Text.lower "Error: Facial model not loaded." = "error: facial model not loaded.".
Proof. reflexivity. Qed.

(** ** The confidence normaliser *)

Lemma get_stress_confidence_error (label : string) (confidence : pyobj) :
  Text.contains "error" (Text.lower label) = true ->
  get_stress_confidence label confidence = (1 # 2)%Q.
Proof. unfold get_stress_confidence. now intros ->. Qed.

Lemma get_stress_confidence_stressed (c : Q) :
  get_stress_confidence "Stressed" (PyNum c) = c.
Proof. reflexivity. Qed.

Lemma get_stress_confidence_not_stressed (c : Q) :
  get_stress_confidence "Not Stressed" (PyNum c) = (1 - c)%Q.
Proof. reflexivity. Qed.

Lemma get_stress_confidence_other (label : string) (c : Q) :
  Text.contains "error" (Text.lower label) = false ->
  Text.lower label <> "stressed" ->
  get_stress_confidence label (PyNum c) = (1 - c)%Q.
Proof.
  intros He Hs. unfold get_stress_confidence. rewrite He.
  apply String.eqb_neq in Hs. now rewrite Hs.
Qed.

(** Every result a predictor returns without having classified is
    normalised to one half. *)
Lemma unavailable_result_half (r : string * pyobj) :
  modality_result r ->
  label_of (fst r) = Unavailable ->
  get_stress_confidence (fst r) (snd r) = (1 # 2)%Q.
Proof.
  intros Hr. destruct Hr as [loaded file run|loaded photo run
                            |loaded line run|loaded answered run].
  - unfold predict_audio. destruct loaded; simpl; [|reflexivity].
    destruct file; [|reflexivity]. destruct run as [e|p]; simpl.
    + intros _. apply get_stress_confidence_error.
      now apply (error_label_app "Error processing audio: ").
    + destruct (Qle_bool (1 # 2) p); discriminate.
  - unfold predict_facial. destruct loaded; simpl; [|reflexivity].
    destruct photo; [|reflexivity]. destruct run as [e|[k p]]; simpl.
    + intros _. apply get_stress_confidence_error.
      now apply (error_label_app "Error processing facial image: ").
    + destruct (Nat.eqb k 1); discriminate.
  - unfold predict_physio_from_line. destruct loaded; simpl; [|reflexivity].
    destruct (String.eqb line ""); [reflexivity|].
    destruct run as [name| |p]; simpl.
    + intros _. apply get_stress_confidence_error.
      now apply (error_label_app "Physio: Data format error (").
    + reflexivity.
    + destruct (Qle_bool (1 # 2) p); discriminate.
  - unfold predict_dass21. destruct loaded; simpl; [|reflexivity].
    destruct answered; simpl; [|reflexivity]. destruct run as [e|p]; simpl.
    + intros _. apply get_stress_confidence_error.
      now apply (error_label_app "Error with DASS-21 input: ").
    + destruct (Qle_bool (1 # 2) p); discriminate.
Qed.

(** C4, as stated, fails: the label the physiological predictor returns
    when there is no telemetry denotes Unavailable, yet with the confidence
    3/10 the normaliser returns 7/10, not 1/2. *)
Lemma get_stress_confidence_no_data_label :
  fst (predict_physio_from_line true "" PhysioOtherError)
  = "Physio: No data available from ESP32. ⏳"
  /\ label_of "Physio: No data available from ESP32. ⏳" = Unavailable
  /\ get_stress_confidence "Physio: No data available from ESP32. ⏳"
       (PyNum (3 # 10)) = (7 # 10)%Q
  /\ ~ (get_stress_confidence "Physio: No data available from ESP32. ⏳"
          (PyNum (3 # 10)) == 1 # 2)%Q.
Proof. repeat split. intros H. vm_compute in H. discriminate H. Qed.

(** C4, amended: a label in whose lowercase form "error" occurs, which is
    how the normaliser recognises Unavailable, is normalised to exactly 1/2
    whatever the confidence; the label Stressed returns the confidence
    unchanged and the label Not Stressed one minus the confidence.  The
    no-data label of the physiological predictor has no "error" in it and
    is normalised like Not Stressed, to one minus the confidence; every
    unavailable result the four predictors do return, this one included,
    carries the confidence 1/2 and is normalised to exactly 1/2. *)
Theorem get_stress_confidence_by_label :
  (forall (label : string) (confidence : pyobj),
      Text.contains "error" (Text.lower label) = true ->
      get_stress_confidence label confidence = (1 # 2)%Q) /\
  (forall c : Q, get_stress_confidence "Stressed" (PyNum c) = c) /\
  (forall c : Q, get_stress_confidence "Not Stressed" (PyNum c) = (1 - c)%Q) /\
  (forall c : Q,
      get_stress_confidence "Physio: No data available from ESP32. ⏳" (PyNum c)
      = (1 - c)%Q) /\
  (forall r : string * pyobj,
      modality_result r -> label_of (fst r) = Unavailable ->
      get_stress_confidence (fst r) (snd r) = (1 # 2)%Q).
Proof.
  split; [exact get_stress_confidence_error|].
  split; [exact get_stress_confidence_stressed|].
  split; [exact get_stress_confidence_not_stressed|].
  split; [|exact unavailable_result_half].
  intros c. now apply get_stress_confidence_other.
Qed.

(** A label with "Error" in it under a confidence of 3/2; the physiological
    predictor without a line, and a survey whose model raised. *)
Lemma get_stress_confidence_by_label_witness :
  get_stress_confidence "Error: Audio model not loaded. 🚫" (PyNum (3 # 2))
  = (1 # 2)%Q
  /\ get_stress_confidence "Physio: No data available from ESP32. ⏳" half
     = (1 # 2)%Q
  /\ get_stress_confidence "Error with DASS-21 input: boom 🚨" half = (1 # 2)%Q.
Proof.
  split; [|split].
  - apply (proj1 get_stress_confidence_by_label). reflexivity.
  - exact (proj2 (proj2 (proj2 (proj2 get_stress_confidence_by_label))) _
             (mr_physio true "" PhysioOtherError) eq_refl).
  - exact (proj2 (proj2 (proj2 (proj2 get_stress_confidence_by_label))) _
             (mr_survey true true (Raised "boom")) eq_refl).
Defined.

(** C5, as stated, fails twice: the label Stressed with the confidence 3/2
    is returned unchanged, above 1; and the no-data label, which denotes
    Unavailable, with the confidence 1/5 gives 4/5, not 1/2. *)
Lemma get_stress_confidence_unbounded :
  ~ (0 <= get_stress_confidence "Stressed" (PyNum (3 # 2)) <= 1)%Q
  /\ label_of "Physio: No data available from ESP32. ⏳" = Unavailable
  /\ ~ (get_stress_confidence "Physio: No data available from ESP32. ⏳"
          (PyNum (1 # 5)) == 1 # 2)%Q.
Proof.
  split; [|split].
  - intros [_ H]. vm_compute in H. now apply H.
  - reflexivity.
  - intros H. vm_compute in H. discriminate H.
Qed.

(** C5, amended, on any argument.  When [float(confidence)] returns a
    value of [0,1], or raises [ValueError] or [TypeError], the call returns
    a value of [0,1], which in the second case is 1/2.  A label in which
    the normaliser finds "error" returns exactly 1/2 for every argument,
    [float()] not being reached.  Without "error" in the label, an
    exception of [float()] other than those two leaves the function. *)
Theorem get_stress_confidence_range :
  (forall (label : string) (confidence : pyobj),
      (forall c : Q, float_of confidence = Some c -> 0 <= c <= 1)%Q ->
      exists v : Q,
        get_stress_confidence_call label (Handled confidence) = Returned v /\
        (0 <= v <= 1)%Q) /\
  (forall (label repr : string),
      get_stress_confidence_call label (Handled (PyOther repr))
      = Returned (1 # 2)%Q) /\
  (forall (label : string) (confidence : pyarg),
      Text.contains "error" (Text.lower label) = true ->
      get_stress_confidence_call label confidence = Returned (1 # 2)%Q) /\
  (forall (label exception : string),
      Text.contains "error" (Text.lower label) = false ->
      get_stress_confidence_call label (Unhandled exception)
      = Raised exception).
Proof.
  split; [|split; [|split]].
  - intros label confidence Hc.
    exists (get_stress_confidence label confidence). split; [reflexivity|].
    unfold get_stress_confidence.
    destruct (Text.contains "error" (Text.lower label)); [lra|].
    destruct (float_of confidence) as [c|] eqn:E.
    + specialize (Hc c eq_refl).
      destruct (String.eqb (Text.lower label) "stressed"); lra.
    + destruct (String.eqb (Text.lower label) "stressed"); lra.
  - intros label repr. cbn [get_stress_confidence_call]. f_equal.
    unfold get_stress_confidence. cbn [float_of].
    destruct (Text.contains "error" (Text.lower label)); [reflexivity|].
    destruct (String.eqb (Text.lower label) "stressed"); reflexivity.
  - intros label [o|exception] H; cbn [get_stress_confidence_call].
    + now rewrite get_stress_confidence_error.
    + now rewrite H.
  - intros label exception H. cbn [get_stress_confidence_call]. now rewrite H.
Qed.

(** The confidence 4/5 under Not Stressed; an error label with the integer
    [10**400]; the same integer under Stressed. *)
Lemma get_stress_confidence_range_witness :
  (exists v : Q,
      get_stress_confidence_call "Not Stressed" (Handled (PyNum (4 # 5)))
      = Returned v /\ (0 <= v <= 1)%Q)
  /\ get_stress_confidence_call "Error: Audio model not loaded. 🚫"
       (Unhandled "OverflowError") = Returned (1 # 2)%Q
  /\ get_stress_confidence_call "Stressed" (Unhandled "OverflowError")
     = Raised "OverflowError".
Proof.
  split; [|split].
  - apply (proj1 get_stress_confidence_range "Not Stressed" (PyNum (4 # 5))).
    intros c E. injection E as <-. lra.
  - apply (proj1 (proj2 (proj2 get_stress_confidence_range))). reflexivity.
  - apply (proj2 (proj2 (proj2 get_stress_confidence_range))). reflexivity.
Defined.

(** C10: a label whose lowercase form neither contains "error" nor equals
    "stressed" is normalised as Not Stressed, to one minus the confidence;
    the physiological no-data message is such a label. *)
Theorem get_stress_confidence_default_branch :
  (forall (label : string) (c : Q),
      Text.contains "error" (Text.lower label) = false ->
      Text.lower label <> "stressed" ->
      get_stress_confidence label (PyNum c) = (1 - c)%Q) /\
  (forall c : Q,
      get_stress_confidence "Physio: No data available from ESP32. ⏳" (PyNum c)
      = (1 - c)%Q).
Proof.
  split; [exact get_stress_confidence_other|].
  intros c. now apply get_stress_confidence_other.
Qed.

Lemma get_stress_confidence_default_branch_witness :
  get_stress_confidence "calm" (PyNum (3 # 10)) = (1 - (3 # 10))%Q.
Proof.
  apply (proj1 get_stress_confidence_default_branch "calm" (3 # 10)).
  - reflexivity.
  - discriminate.
Defined.

(** ** Sums *)

Lemma fold_left_Qplus_acc (l : list Q) (a : Q) :
  (fold_left Qplus l a == a + py_sum l)%Q.
Proof.
  unfold py_sum. revert a. induction l as [|x l IH]; intros a; simpl.
  - ring.
  - rewrite (IH (a + x)%Q), (IH (0 + x)%Q). ring.
Qed.

Lemma py_sum_nil : py_sum [] = 0%Q.
Proof. reflexivity. Qed.

Lemma py_sum_cons (x : Q) (l : list Q) : (py_sum (x :: l) == x + py_sum l)%Q.
Proof.
  unfold py_sum at 1. simpl. rewrite fold_left_Qplus_acc. ring.
Qed.

Lemma py_sum_perm (l l' : list Q) :
  Permutation l l' -> (py_sum l == py_sum l')%Q.
Proof.
  induction 1 as [|x l l' _ IH|x y l|l l' l'' _ IH1 _ IH2].
  - reflexivity.
  - rewrite !py_sum_cons, IH. reflexivity.
  - rewrite !py_sum_cons. ring.
  - now rewrite IH1.
Qed.

(** Sums of pointwise equal terms. *)
Lemma py_sum_map_ext {A : Type} (f g : A -> Q) (l : list A) :
  (forall a, In a l -> f a == g a)%Q ->
  (py_sum (map f l) == py_sum (map g l))%Q.
Proof.
  induction l as [|a l IH]; intros H; [reflexivity|].
  simpl. rewrite !py_sum_cons, IH, (H a).
  - reflexivity.
  - now left.
  - intros b Hb. apply H. now right.
Qed.


(** Leaving one index out of a sum over a range removes its term. *)
Lemma py_sum_skip_index (f : nat -> Q) (i a n : nat) :
  (a <= i < a + n)%nat ->
  (py_sum (map f (List.filter (fun j => negb (Nat.eqb i j)) (seq a n)))
   == py_sum (map f (seq a n)) - f i)%Q.
Proof.
  revert a. induction n as [|n IH]; intros a Hi; [lia|].
  cbn [seq List.filter]. destruct (Nat.eqb_spec i a) as [->|Hne]; cbn [negb].
  - cbn [map]. rewrite py_sum_cons.
    assert (E : List.filter (fun j => negb (Nat.eqb a j)) (seq (S a) n)
                = seq (S a) n).
    { apply forallb_filter_id, forallb_forall. intros j Hj.
      apply in_seq in Hj. apply negb_true_iff, Nat.eqb_neq. lia. }
    rewrite E. ring.
  - cbn [map]. rewrite !py_sum_cons, IH by lia. ring.
Qed.

Lemma map_nth_seq {A : Type} (g : Q -> A) (v : list Q) :
  map (fun j => g (nth j v 0%Q)) (seq 0 (length v)) = map g v.
Proof.
  induction v as [|a v IH]; [reflexivity|].
  cbn [length seq map nth]. f_equal.
  rewrite <- seq_shift, map_map. exact IH.
Qed.

(** ** Agreement scores *)

Lemma Qabs_diag (a : Q) : (Qabs (a - a) == 0)%Q.
Proof.
  assert (E : (a - a == 0)%Q) by ring.
  rewrite E. reflexivity.
Qed.

(** The score of index [i] only depends on the value at [i]. *)
Lemma agree_score_weight (v : list Q) (i : nat) :
  (i < length v)%nat -> (agree_score v i == weight v (nth i v 0%Q))%Q.
Proof.
  intros Hi. unfold agree_score, weight, closeness.
  rewrite (py_sum_skip_index
             (fun j => (1 - Qabs (nth i v 0 - nth j v 0))%Q) i 0 (length v))
    by lia.
  rewrite (map_nth_seq (fun b => (1 - Qabs (nth i v 0 - b))%Q) v).
  rewrite Qabs_diag. apply Qdiv_comp; [ring | reflexivity].
Qed.

Lemma sum_agree_scores (v : list Q) :
  (py_sum (agree_scores v) == py_sum (map (weight v) v))%Q.
Proof.
  unfold agree_scores. rewrite <- (map_nth_seq (weight v) v).
  apply py_sum_map_ext. intros j Hj. apply in_seq in Hj.
  apply agree_score_weight. lia.
Qed.

Lemma combine_map_same {A B C : Type} (f : A -> B) (g : A -> C) (s : list A) :
  combine (map f s) (map g s) = map (fun a => (f a, g a)) s.
Proof. induction s as [|a s IH]; simpl; congruence. Qed.

Lemma dot_agree_scores (v : list Q) :
  (dot (agree_scores v) v == py_sum (map (fun a => weight v a * a)%Q v))%Q.
Proof.
  unfold dot, agree_scores.
  assert (E : combine (map (agree_score v) (seq 0 (length v))) v
              = map (fun j => (agree_score v j, nth j v 0%Q))
                    (seq 0 (length v))).
  { rewrite <- combine_map_same. f_equal.
    rewrite (map_nth_seq (fun a => a) v). now rewrite map_id. }
  rewrite E, map_map. cbn [fst snd].
  rewrite <- (map_nth_seq (fun a => (weight v a * a)%Q) v).
  apply py_sum_map_ext. intros j Hj. apply in_seq in Hj.
  rewrite agree_score_weight by lia. reflexivity.
Qed.

(** ** Fusion is symmetric *)

Lemma closeness_perm (v v' : list Q) (a : Q) :
  Permutation v v' -> (closeness v a == closeness v' a)%Q.
Proof. intros H. apply py_sum_perm. now apply Permutation_map. Qed.

Lemma weight_perm (v v' : list Q) (a : Q) :
  Permutation v v' -> (weight v a == weight v' a)%Q.
Proof.
  intros H. unfold weight.
  rewrite (closeness_perm v v' a H), (Permutation_length H). reflexivity.
Qed.

Lemma sum_weight_perm (v v' : list Q) :
  Permutation v v' ->
  (py_sum (map (weight v) v) == py_sum (map (weight v') v'))%Q.
Proof.
  intros H.
  rewrite (py_sum_perm _ _ (Permutation_map (weight v) H)).
  apply py_sum_map_ext. intros a _. now apply weight_perm.
Qed.

Lemma sum_weighted_perm (v v' : list Q) :
  Permutation v v' ->
  (py_sum (map (fun a => weight v a * a)%Q v)
   == py_sum (map (fun a => weight v' a * a)%Q v'))%Q.
Proof.
  intros H.
  rewrite (py_sum_perm _ _ (Permutation_map (fun a => weight v a * a)%Q H)).
  apply py_sum_map_ext. intros a _. now rewrite (weight_perm v v' a H).
Qed.

Lemma mean_perm (v v' : list Q) :
  Permutation v v' -> (mean v == mean v')%Q.
Proof.
  intros H. unfold mean.
  rewrite (py_sum_perm v v' H), (Permutation_length H). reflexivity.
Qed.

Lemma valid_confidences_perm (l l' : list Q) :
  Permutation l l' ->
  Permutation (valid_confidences l) (valid_confidences l').
Proof.
  unfold valid_confidences.
  induction 1 as [|x l l' _ IH|x y l|l l' l'' _ IH1 _ IH2]; cbn [List.filter].
  - constructor.
  - destruct (negb (Qeq_bool x (1 # 2))); [now constructor | exact IH].
  - destruct (negb (Qeq_bool x (1 # 2))), (negb (Qeq_bool y (1 # 2)));
      try reflexivity. apply perm_swap.
  - now transitivity (List.filter (fun c => negb (Qeq_bool c (1 # 2))) l').
Qed.

(** The three ways through [agreement_fusion]. *)
Lemma agreement_fusion_none (l : list Q) :
  valid_confidences l = [] -> agreement_fusion l = (1 # 2)%Q.
Proof. unfold agreement_fusion. now intros ->. Qed.

Lemma agreement_fusion_one (l : list Q) (c : Q) :
  valid_confidences l = [c] -> agreement_fusion l = c.
Proof. unfold agreement_fusion. now intros ->. Qed.

Lemma agreement_fusion_many (l : list Q) :
  (2 <= length (valid_confidences l))%nat ->
  agreement_fusion l
  = if Qlt_bool (py_sum (agree_scores (valid_confidences l))) (1 # 1000000000)
    then mean (valid_confidences l)
    else (dot (agree_scores (valid_confidences l)) (valid_confidences l)
          / py_sum (agree_scores (valid_confidences l)))%Q.
Proof.
  unfold agreement_fusion.
  destruct (valid_confidences l) as [|a [|b t]]; cbn [length]; intros H;
    [lia | lia | reflexivity].
Qed.

Lemma Qlt_bool_comp (a a' b : Q) : (a == a')%Q -> Qlt_bool a b = Qlt_bool a' b.
Proof. intros E. unfold Qlt_bool. now rewrite E. Qed.

Lemma agreement_fusion_perm (l l' : list Q) :
  Permutation l l' -> (agreement_fusion l' == agreement_fusion l)%Q.
Proof.
  intros H. apply valid_confidences_perm in H.
  destruct (valid_confidences l) as [|a [|b t]] eqn:E.
  - apply Permutation_nil in H.
    rewrite (agreement_fusion_none l E), (agreement_fusion_none l' H).
    reflexivity.
  - apply Permutation_length_1_inv in H.
    rewrite (agreement_fusion_one l a E), (agreement_fusion_one l' a H).
    reflexivity.
  - rewrite <- E in H.
    assert (Hl : (2 <= length (valid_confidences l))%nat)
      by (rewrite E; cbn [length]; lia).
    assert (Hl' : (2 <= length (valid_confidences l'))%nat)
      by (rewrite <- (Permutation_length H); exact Hl).
    rewrite (agreement_fusion_many l Hl), (agreement_fusion_many l' Hl').
    assert (Es : (py_sum (agree_scores (valid_confidences l'))
                  == py_sum (agree_scores (valid_confidences l)))%Q).
    { rewrite !sum_agree_scores. symmetry. now apply sum_weight_perm. }
    rewrite (Qlt_bool_comp _ _ _ Es).
    destruct (Qlt_bool (py_sum (agree_scores (valid_confidences l))) _).
    + symmetry. now apply mean_perm.
    + rewrite Es, !dot_agree_scores.
      rewrite (sum_weighted_perm _ _ H). reflexivity.
Qed.

Lemma filter_perm {A : Type} (f : A -> bool) (l l' : list A) :
  Permutation l l' -> Permutation (List.filter f l) (List.filter f l').
Proof.
  induction 1 as [|x l l' _ IH|x y l|l l' l'' _ IH1 _ IH2]; cbn [List.filter].
  - constructor.
  - destruct (f x); [now constructor | exact IH].
  - destruct (f x), (f y); try reflexivity. apply perm_swap.
  - now transitivity (List.filter f l').
Qed.

(** With at most one input other than 0.5 nothing is computed, and the
    order of the inputs cannot show. *)
Lemma b64_fusion_perm_few (m : B64.summation) (l l' : list float) :
  Permutation l l' ->
  (length (B64.valid_confidences l) <= 1)%nat ->
  B64.agreement_fusion m l' = B64.agreement_fusion m l.
Proof.
  intros H Hlen.
  apply (filter_perm (fun c => negb (PrimFloat.eqb c 0x1p-1%float))) in H.
  fold (B64.valid_confidences l) in H. fold (B64.valid_confidences l') in H.
  unfold B64.agreement_fusion.
  destruct (B64.valid_confidences l) as [|a [|b t]].
  - apply Permutation_nil in H. now rewrite H.
  - apply Permutation_length_1_inv in H. now rewrite H.
  - cbn [length] in Hlen. lia.
Qed.

(** C6, as stated, fails on binary64 numbers: of the inputs 0.2, 0.8, 0.4,
    0.6 the order 0.2, 0.8, 0.4, 0.6 is fused to 0.49999999999999994 and the
    order 0.2, 0.8, 0.6, 0.4 to 0.5, under either way of summing, and the
    overall label changes with it. *)
Lemma agreement_fusion_order_shows :
  Permutation [B64.f02; B64.f08; B64.f04; B64.f06]
              [B64.f02; B64.f08; B64.f06; B64.f04]
  /\ (forall m : B64.summation,
        B64.agreement_fusion m [B64.f02; B64.f08; B64.f04; B64.f06]
        = 0x1.fffffffffffffp-2%float
        /\ B64.agreement_fusion m [B64.f02; B64.f08; B64.f06; B64.f04]
           = 0x1p-1%float)
  /\ B64.overall_label 0x1.fffffffffffffp-2%float = "Not Stressed"
  /\ B64.overall_label 0x1p-1%float = "Stressed".
Proof.
  split; [|split; [|split]].
  - do 2 apply perm_skip. apply perm_swap.
  - intros [|]; split; vm_compute; reflexivity.
  - vm_compute. reflexivity.
  - vm_compute. reflexivity.
Qed.

(** C6, amended: computed in exact arithmetic, the fused score of a list
    (of four inputs or of any other number) is the same for every
    permutation of the list; the binary64 number the code returns is the
    same for every permutation when at most one input differs from 0.5. *)
Theorem agreement_fusion_permutation_invariant :
  (forall l l' : list Q,
      Permutation l l' -> (agreement_fusion l' == agreement_fusion l)%Q) /\
  (forall (m : B64.summation) (l l' : list float),
      Permutation l l' ->
      (length (B64.valid_confidences l) <= 1)%nat ->
      B64.agreement_fusion m l' = B64.agreement_fusion m l).
Proof. split; [exact agreement_fusion_perm | exact b64_fusion_perm_few]. Qed.

(** The four inputs 0.9, 0.85, 0.1, 0.5 and the same in reverse order, in
    exact arithmetic; a lone 0.8 among three 0.5, and the reverse, in
    binary64. *)
Lemma agreement_fusion_permutation_invariant_witness :
  (agreement_fusion [1 # 2; 1 # 10; 85 # 100; 9 # 10]
   == agreement_fusion [9 # 10; 85 # 100; 1 # 10; 1 # 2])%Q
  /\ B64.agreement_fusion B64.Compensated
       [0x1p-1; 0x1p-1; B64.f08; 0x1p-1]%float
     = B64.agreement_fusion B64.Compensated
         [0x1p-1; B64.f08; 0x1p-1; 0x1p-1]%float.
Proof.
  split.
  - apply (proj1 agreement_fusion_permutation_invariant
             [9 # 10; 85 # 100; 1 # 10; 1 # 2]%Q
             [1 # 2; 1 # 10; 85 # 100; 9 # 10]%Q).
    exact (Permutation_rev [9 # 10; 85 # 100; 1 # 10; 1 # 2]%Q).
  - apply (proj2 agreement_fusion_permutation_invariant B64.Compensated
             [0x1p-1; B64.f08; 0x1p-1; 0x1p-1]%float
             [0x1p-1; 0x1p-1; B64.f08; 0x1p-1]%float).
    + exact (Permutation_rev [0x1p-1; B64.f08; 0x1p-1; 0x1p-1]%float).
    + vm_compute. lia.
Defined.

(** The inputs 0.9, 0.85, 0.1 and a neutral 0.5: the outlier is weighted
    down, and the score 3/4 lies between the plain average of the three
    and the average of the two that agree. *)
Example agreement_fusion_outlier :
  (agreement_fusion [9 # 10; 85 # 100; 1 # 10; 1 # 2] == 3 # 4)%Q
  /\ (mean [9 # 10; 85 # 100; 1 # 10] < 3 # 4 < mean [9 # 10; 85 # 100])%Q.
Proof. split; [reflexivity|]. split; reflexivity. Qed.

Example agreement_fusion_neutral :
  agreement_fusion [1 # 2; 1 # 2; 1 # 2; 1 # 2]%Q = (1 # 2)%Q.
Proof. reflexivity. Qed.

(** ** Fusion of equal estimates *)

Lemma valid_confidences_In (l : list Q) (c : Q) :
  In c (valid_confidences l) <-> In c l /\ ~ (c == 1 # 2)%Q.
Proof.
  unfold valid_confidences. rewrite filter_In, negb_true_iff.
  rewrite <- not_true_iff_false, Qeq_bool_iff. reflexivity.
Qed.

Section AllEqual.

Variable x : Q.
Variable v : list Q.
Hypothesis v_equal : forall a, In a v -> (a == x)%Q.
Hypothesis v_many : (2 <= length v)%nat.

#[local] Abbreviation M := (inject_Z (Z.of_nat (length v))).








End AllEqual.






(** ** Discovery *)

Module DiscoveryFacts.
Import Discovery.

Lemma events_app (l l' : list step) :
  events (l ++ l') = (events l ++ events l')%list.
Proof.
  induction l as [|s l IH]; [reflexivity|].
  destruct s; cbn [app events]; now rewrite ?IH.
Qed.

Lemma probed_app (l l' : list step) :
  probed (l ++ l') = (probed l ++ probed l')%list.
Proof.
  induction l as [|s l IH]; [reflexivity|].
  destruct s; cbn [app probed]; now rewrite ?IH.
Qed.

Lemma open_after_app (o : list string) (l l' : list step) :
  open_after o (l ++ l') = open_after (open_after o l) l'.
Proof.
  revert o. induction l as [|s l IH]; intros o; [reflexivity|].
  destruct s as [m p|p [|]| |p ok|p ok|p]; cbn [app open_after]; apply IH.
Qed.

(** The handshake yields nothing and opens, or tries to open, its port only. *)
Lemma events_handshake (world : string -> port_behaviour) (port : string) :
  events (handshake world port) = [].
Proof. unfold handshake. now destruct (world port). Qed.

Lemma probed_handshake (world : string -> port_behaviour) (port : string) :
  probed (handshake world port) = [port].
Proof. unfold handshake. now destruct (world port). Qed.

(** The events one port contributes while it is the loop variable. *)
Lemma events_probe_loop_cons (world : string -> port_behaviour)
    (port : string) (rest : list string) :
  events (probe_loop world (port :: rest))
  = ("Testing port: " ++ port ++ "...", None) ::
    (if raises (world port)
     then ("Error on " ++ port ++ ". Skipping.", None)
          :: events (probe_loop world rest)
     else if answers_pong (world port)
          then [("✅ ESP32 found on " ++ port ++ "!", Some port)]
          else events (probe_loop world rest)).
Proof.
  cbn [probe_loop]. unfold testing at 1. cbn [events]. f_equal.
  rewrite events_app, events_handshake. cbn [app].
  destruct (raises (world port)); [reflexivity|].
  destruct (answers_pong (world port)); reflexivity.
Qed.

Lemma probed_probe_loop_cons (world : string -> port_behaviour)
    (port : string) (rest : list string) :
  probed (probe_loop world (port :: rest))
  = port ::
    (if raises (world port) then probed (probe_loop world rest)
     else if answers_pong (world port) then []
          else probed (probe_loop world rest)).
Proof.
  cbn [probe_loop]. unfold testing at 1. cbn [probed].
  rewrite probed_app, probed_handshake. cbn [app]. f_equal.
  destruct (raises (world port)); [reflexivity|].
  destruct (answers_pong (world port)); reflexivity.
Qed.

(** Ports that do not answer PONG are stepped over one by one. *)
Lemma probe_loop_passes (world : string -> port_behaviour)
    (before rest : list string) :
  Forall (fun q => answers_pong (world q) = false) before ->
  exists pre,
    probe_loop world (before ++ rest) = (pre ++ probe_loop world rest)%list /\
    probed pre = before.
Proof.
  induction 1 as [|q before Hq _ (pre & E & Hp)].
  - exists []. split; reflexivity.
  - exists (testing q :: handshake world q ++
            (if raises (world q) then [skipping q] else []) ++ pre).
    split.
    + cbn [app probe_loop]. rewrite Hq, E. f_equal.
      rewrite <- !app_assoc. f_equal.
      destruct (raises (world q)); reflexivity.
    + unfold testing. cbn [probed].
      rewrite !probed_app, probed_handshake, Hp.
      destruct (raises (world q)); reflexivity.
Qed.

(** C1, as stated, fails: when port A opens and lets the read time out,
    the events are the two progress events and the success; nothing
    reports that A was skipped. *)
Lemma auto_detect_silent_port_unreported :
  events (steps (auto_detect_esp32_port silent_A ["A"; "B"; "C"]))
  = [("Testing port: A...", None); ("Testing port: B...", None);
     ("✅ ESP32 found on B!", Some "B")]
  /\ ~ In ("Error on A. Skipping.", None)
          (events (steps (auto_detect_esp32_port silent_A ["A"; "B"; "C"]))).
Proof.
  split; [reflexivity|].
  vm_compute. intros [H|[H|[H|[]]]]; discriminate H.
Qed.

(** C1, amended: over A, B, C with only B answering PONG, the events are
    the progress event for A, the skip event for A exactly when a serial
    operation on A raised, the progress event for B and the success
    carrying B; C is never opened.  In general, once the loop reaches a
    port its progress event comes first; if an operation on the port
    raises, the operations stop there, without a close, and the skip event
    follows, ahead of the next port; if the port opens and answers, it is
    written to, read and closed, and then either the success event ends
    the run (the answer was PONG) or the loop goes on to the next port with
    no event for this one.  What follows a port that was passed over is the
    progress event of the next port or, after the last port, the event
    asking for a manual selection. *)
Theorem auto_detect_events :
  (forall world : string -> port_behaviour,
      answers_pong (world "A") = false ->
      answers_pong (world "B") = true ->
      let r := auto_detect_esp32_port world ["A"; "B"; "C"] in
      events (steps r)
      = ([("Testing port: A...", None)] ++
         (if raises (world "A") then [("Error on A. Skipping.", None)] else []) ++
         [("Testing port: B...", None); ("✅ ESP32 found on B!", Some "B")])%list
      /\ probed (steps r) = ["A"; "B"]
      /\ returned r = None) /\
  (forall (world : string -> port_behaviour) (before : list string)
          (port : string) (rest : list string),
      Forall (fun q => answers_pong (world q) = false) before ->
      exists pre,
        probed pre = before /\
        steps (auto_detect_esp32_port world (before ++ port :: rest))
        = (pre ++
           Yield ("Testing port: " ++ port ++ "...") None ::
           match world port with
           | OpenRaises =>
               SerialOpen port false ::
               Yield ("Error on " ++ port ++ ". Skipping.") None ::
               probe_loop world rest
           | WriteRaises =>
               SerialOpen port true :: Sleep :: SerialWrite port false ::
               Yield ("Error on " ++ port ++ ". Skipping.") None ::
               probe_loop world rest
           | ReadRaises =>
               SerialOpen port true :: Sleep :: SerialWrite port true ::
               SerialReadline port false ::
               Yield ("Error on " ++ port ++ ". Skipping.") None ::
               probe_loop world rest
           | Answers text =>
               SerialOpen port true :: Sleep :: SerialWrite port true ::
               SerialReadline port true :: SerialClose port ::
               (if String.eqb (Text.strip text) "PONG"
                then [Yield ("✅ ESP32 found on " ++ port ++ "!") (Some port)]
                else probe_loop world rest)
           end)%list) /\
  (forall world : string -> port_behaviour,
      probe_loop world []
      = [Yield "❌ Auto-detection failed. Please select the port manually."
           None] /\
      forall (next : string) (rest : list string),
      exists tail,
        probe_loop world (next :: rest)
        = Yield ("Testing port: " ++ next ++ "...") None ::
          SerialOpen next (negb (match world next with
                                 | OpenRaises => true
                                 | _ => false
                                 end)) :: tail).
Proof.
  split; [|split].
  - intros world HA HB r. subst r. cbn [auto_detect_esp32_port steps returned].
    assert (RB : raises (world "B") = false)
      by (destruct (world "B"); [discriminate HB.. | reflexivity]).
    rewrite events_probe_loop_cons, probed_probe_loop_cons.
    rewrite events_probe_loop_cons, probed_probe_loop_cons.
    rewrite HA, HB, RB. cbn [app].
    destruct (raises (world "A")); repeat split; reflexivity.
  - intros world before port rest H.
    destruct (probe_loop_passes world before (port :: rest) H) as (pre & E & Hp).
    exists pre. split; [exact Hp|].
    assert (S : steps (auto_detect_esp32_port world (before ++ port :: rest))
                = probe_loop world (before ++ port :: rest)).
    { unfold auto_detect_esp32_port.
      destruct (before ++ port :: rest)%list eqn:X; [|reflexivity].
      now destruct before. }
    rewrite S, E. f_equal. cbn [probe_loop]. unfold handshake.
    destruct (world port) as [| | |text]; cbn [app raises answers_pong];
      reflexivity.
  - intros world. split; [reflexivity|]. intros next rest.
    cbn [probe_loop]. unfold handshake.
    destruct (world next) as [| | |text]; cbn [app negb]; eexists; reflexivity.
Qed.

(** Port A cannot be opened: its skip event comes before B is tried. *)
Lemma auto_detect_events_witness :
  events (steps (auto_detect_esp32_port busy_A ["A"; "B"; "C"]))
  = [("Testing port: A...", None); ("Error on A. Skipping.", None);
     ("Testing port: B...", None); ("✅ ESP32 found on B!", Some "B")]
  /\ probed (steps (auto_detect_esp32_port busy_A ["A"; "B"; "C"])) = ["A"; "B"]
  /\ returned (auto_detect_esp32_port busy_A ["A"; "B"; "C"]) = None.
Proof.
  exact (proj1 auto_detect_events busy_A eq_refl eq_refl).
Defined.

(** C2: with no serial port at all the generator ends at once: its message
    is the value of the [return], and nothing is yielded. *)
Theorem auto_detect_no_ports (world : string -> port_behaviour) :
  events (steps (auto_detect_esp32_port world [])) = []
  /\ steps (auto_detect_esp32_port world []) = []
  /\ returned (auto_detect_esp32_port world [])
     = Some ("No serial ports found.", None).
Proof. repeat split. Qed.

(** On a port that opens and answers, PONG or not, the handshake closes
    what it opened. *)
Lemma handshake_closes (world : string -> port_behaviour) (port : string) :
  (world port = OpenRaises \/ exists text, world port = Answers text) ->
  open_after [] (handshake world port) = [].
Proof.
  unfold handshake. intros [->|[text ->]]; [reflexivity|].
  cbn [open_after app List.filter]. now rewrite String.eqb_refl.
Qed.

(** Without a failure between the open and the close, nothing stays open. *)
Lemma probe_loop_closes (world : string -> port_behaviour) (ports : list string) :
  Forall (fun p => world p = OpenRaises \/ exists text, world p = Answers text)
         ports ->
  open_after [] (probe_loop world ports) = [].
Proof.
  induction 1 as [|p ports Hp _ IH]; [reflexivity|].
  cbn [probe_loop]. unfold testing at 1. cbn [open_after].
  rewrite open_after_app, (handshake_closes world p Hp).
  destruct (raises (world p)); [exact IH|].
  destruct (answers_pong (world p)); [reflexivity | exact IH].
Qed.

(** C3: when the write on port A raises after the open, A is still open
    while B is opened, while B's success is yielded, and at the end. *)
Theorem auto_detect_leaves_port_open :
  let trace := steps (auto_detect_esp32_port stuck_A ["A"; "B"]) in
  trace
  = [Yield "Testing port: A..." None;
     SerialOpen "A" true; Sleep; SerialWrite "A" false;
     Yield "Error on A. Skipping." None;
     Yield "Testing port: B..." None;
     SerialOpen "B" true; Sleep; SerialWrite "B" true;
     SerialReadline "B" true; SerialClose "B";
     Yield "✅ ESP32 found on B!" (Some "B")]
  /\ open_after [] (firstn 6 trace) = ["A"]
  /\ open_after [] (firstn 7 trace) = ["A"; "B"]
  /\ open_after [] trace = ["A"].
Proof. repeat split. Qed.

End DiscoveryFacts.

(** ** The device session *)

Module SessionFacts.
Import Session.

Section Scan.

Variable json_loads : string -> loads_outcome.

(** C8, amended: on an open session, a line that is not empty once
    stripped and on which [json.loads] raises [JSONDecodeError] is answered
    by the data-format warning; one on which [json.loads] raises anything
    else is answered by the read-error report.  Either way the globals,
    and with them the log and the latest line, stay as they were. *)
Theorem scan_bt_data_malformed (st : state) (text now : string) :
  bt_serial st = Some true ->
  Text.strip text <> "" ->
  let out := scan_bt_data json_loads st (ReadText text) now in
  (json_loads (Text.strip text) = JSONDecodeError ->
   fst out = "Time: " ++ now ++ Text.nl ++ "Invalid Data Format: " ++
             Text.strip text ++ " ⚠️"
   /\ snd out = st
   /\ sensor_log (snd out) = sensor_log st
   /\ latest_line (snd out) = latest_line st) /\
  (forall e : string,
      json_loads (Text.strip text) = LoadsRaised e ->
      fst out = "Error reading from Bluetooth: " ++ e ++ " ❌"
      /\ snd out = st
      /\ sensor_log (snd out) = sensor_log st
      /\ latest_line (snd out) = latest_line st).
Proof.
  intros Hopen Hline. unfold scan_bt_data. rewrite Hopen.
  apply String.eqb_neq in Hline. rewrite Hline. split.
  - intros Hjson. rewrite Hjson. repeat split.
  - intros e Hjson. rewrite Hjson. repeat split.
Qed.

(** The log after one action: a parsed scan inserts under its timestamp,
    anything else leaves the log alone. *)
Lemma sensor_log_perform (st : state) (a : action) :
  sensor_log (perform json_loads st a) = sensor_log st
  \/ exists rd now parsed_data,
       a = Scan rd now /\
       sensor_log (perform json_loads st a)
       = <[now := parsed_data]> (sensor_log st).
Proof.
  destruct a as [rd now|port_name open_error|port_name]; cbn [perform].
  - unfold scan_bt_data. destruct (bt_serial st) as [[|]|]; [|now left..].
    destruct rd as [e|text]; [now left|].
    destruct (String.eqb (Text.strip text) ""); [now left|].
    destruct (json_loads (Text.strip text)) as [d| |e]; [|now left..].
    right. now exists (ReadText text), now, d.
  - left. unfold connect_to_port.
    destruct (String.eqb port_name ""); [reflexivity|].
    now destruct open_error.
  - left. unfold connect_to_port.
    destruct (String.eqb port_name ""); reflexivity.
Qed.

Lemma lookup_perform_other (st : state) (a : action) (k : string) :
  ~ stamped k a ->
  sensor_log (perform json_loads st a) !! k = sensor_log st !! k.
Proof.
  intros Hk. destruct (sensor_log_perform st a) as [->|(rd & now & d & -> & ->)];
    [reflexivity|].
  apply lookup_insert_ne. intros ->. now apply Hk.
Qed.

Lemma lookup_perform_is_Some (st : state) (a : action) (k : string) :
  is_Some (sensor_log st !! k) ->
  is_Some (sensor_log (perform json_loads st a) !! k).
Proof.
  intros Hk. destruct (sensor_log_perform st a) as [->|(rd & now & d & _ & ->)];
    [exact Hk|].
  rewrite lookup_insert_is_Some. destruct (decide (now = k)); auto.
Qed.

(** C9, amended: during a session no key of the log is ever lost, and a
    reading stays as recorded through any sequence of actions in which no
    scan carries its timestamp; a parsed scan whose timestamp is not yet a
    key adds one entry and keeps every other. *)
Theorem sensor_log_grows :
  (forall (st : state) (l : list action) (k : string),
      is_Some (sensor_log st !! k) ->
      is_Some (sensor_log (perform_all json_loads st l) !! k)) /\
  (forall (st : state) (l : list action) (k : string) (v : json),
      sensor_log st !! k = Some v ->
      Forall (fun a => ~ stamped k a) l ->
      sensor_log (perform_all json_loads st l) !! k = Some v) /\
  (forall (st : state) (text now : string) (parsed_data : json),
      bt_serial st = Some true ->
      Text.strip text <> "" ->
      json_loads (Text.strip text) = Loaded parsed_data ->
      sensor_log st !! now = None ->
      let st' := perform json_loads st (Scan (ReadText text) now) in
      sensor_log st' = <[now := parsed_data]> (sensor_log st)
      /\ size (sensor_log st') = S (size (sensor_log st))
      /\ forall k v, sensor_log st !! k = Some v -> sensor_log st' !! k = Some v).
Proof.
  split; [|split].
  - intros st l. revert st. induction l as [|a l IH]; intros st k Hk; [exact Hk|].
    cbn [perform_all fold_left]. apply IH. now apply lookup_perform_is_Some.
  - intros st l. revert st.
    induction l as [|a l IH]; intros st k v Hk Hl; [exact Hk|].
    apply Forall_cons in Hl as [Ha Hl].
    cbn [perform_all fold_left]. apply IH; [|exact Hl].
    now rewrite lookup_perform_other.
  - intros st text now d Hopen Hline Hjson Hnew st'. subst st'.
    cbn [perform]. unfold scan_bt_data. rewrite Hopen.
    apply String.eqb_neq in Hline. rewrite Hline, Hjson. cbn [snd sensor_log].
    split; [reflexivity|]. split; [now apply map_size_insert_None|].
    intros k v Hk. rewrite lookup_insert_ne; [exact Hk|]. congruence.
Qed.

End Scan.

(** C8, as stated, fails: a line of 5000 opening brackets is not empty
    and is not JSON, but [json.loads] overruns the recursion limit on it,
    and the scan answers with the read-error report, not with the
    data-format warning.  The globals stay as they were. *)
Lemma scan_bt_data_deep_line :
  let now := "2025-01-01 10:00:00" in
  let out := scan_bt_data deep_loads bound
               (ReadText (brackets 5000 ++ Text.nl)) now in
  Text.strip (brackets 5000 ++ Text.nl) = brackets 5000
  /\ deep_loads (brackets 5000)
     = LoadsRaised
         "maximum recursion depth exceeded while decoding a JSON array from a unicode string"
  /\ fst out
     = "Error reading from Bluetooth: maximum recursion depth exceeded while decoding a JSON array from a unicode string ❌"
  /\ String.prefix "Time: " (fst out) = false
  /\ snd out = bound.
Proof.
  intros now out.
  assert (Es : Text.strip (brackets 5000 ++ Text.nl) = brackets 5000)
    by (vm_compute; reflexivity).
  assert (El : deep_loads (brackets 5000)
               = LoadsRaised
                   "maximum recursion depth exceeded while decoding a JSON array from a unicode string")
    by (vm_compute; reflexivity).
  assert (Eo : out
               = ("Error reading from Bluetooth: maximum recursion depth exceeded while decoding a JSON array from a unicode string ❌",
                  bound))
    by (vm_compute; reflexivity).
  split; [exact Es|]. split; [exact El|]. rewrite Eo.
  split; [reflexivity|]. split; reflexivity.
Qed.

(** A bound session that has read "1", offered the line "not json". *)
Lemma scan_bt_data_malformed_witness :
  let st := perform sample_loads bound (Scan (ReadText "1") "2025-01-01 10:00:00") in
  let out := scan_bt_data sample_loads st (ReadText "not json") "2025-01-01 10:00:05" in
  fst out = "Time: 2025-01-01 10:00:05" ++ Text.nl ++
            "Invalid Data Format: not json ⚠️"
  /\ sensor_log (snd out) = sensor_log st
  /\ latest_line (snd out) = "1".
Proof.
  intros st out.
  destruct (scan_bt_data_malformed sample_loads st "not json"
              "2025-01-01 10:00:05" eq_refl) as [H _].
  - discriminate.
  - destruct (H eq_refl) as (Hmsg & _ & Hlog & Hline).
    split; [exact Hmsg|]. split; [exact Hlog | exact Hline].
Defined.

(** C9, as stated, fails: two parsed reads within the same second share a
    key, and the second reading takes the place of the first. *)
Lemma sensor_log_overwritten :
  let now := "2025-01-01 10:00:00" in
  let st1 := perform sample_loads bound (Scan (ReadText "1") now) in
  let st2 := perform sample_loads st1 (Scan (ReadText "2") now) in
  sensor_log st1 !! now = Some (JNum 1)
  /\ sensor_log st2 !! now = Some (JNum 2)
  /\ size (sensor_log st2) = 1%nat
  /\ forall k, sensor_log st2 !! k <> Some (JNum 1).
Proof.
  intros now st1 st2.
  assert (E1 : sensor_log st1 = {[now := JNum 1]}) by reflexivity.
  assert (E2 : sensor_log st2 = {[now := JNum 2]}).
  { change (sensor_log st2) with (<[now := JNum 2]> (sensor_log st1)).
    rewrite E1. apply insert_singleton_eq. }
  rewrite E1, E2. split; [apply lookup_singleton_eq|].
  split; [apply lookup_singleton_eq|]. split; [apply map_size_singleton|].
  intros k. destruct (decide (now = k)) as [<-|Hk].
  - rewrite lookup_singleton_eq. discriminate.
  - rewrite lookup_singleton_ne by exact Hk. discriminate.
Qed.

(** A reading taken at 10:00:00 survives a later malformed line, a
    reconnection and a reading taken at 10:00:02. *)
Lemma sensor_log_grows_witness :
  let st := perform sample_loads bound (Scan (ReadText "1") "2025-01-01 10:00:00") in
  sensor_log
    (perform_all sample_loads st
       [Scan (ReadText "not json") "2025-01-01 10:00:01";
        Connect "COM4" None;
        Scan (ReadText "2") "2025-01-01 10:00:02"])
  !! "2025-01-01 10:00:00" = Some (JNum 1).
Proof.
  intros st.
  apply (proj1 (proj2 (sensor_log_grows sample_loads))).
  - apply lookup_insert_eq.
  - repeat constructor; cbn [stamped]; solve [discriminate | tauto].
Defined.

End SessionFacts.

(** * Further properties *)

(** ** Discovery: which ports are probed, what is reported, what stays open *)

Module DiscoveryRuns.
Import Discovery.

(** A reply padded with a no-break space is a PONG all the same: the run
    stops at A. *)
Example auto_detect_padded_reply :
  events (steps (auto_detect_esp32_port padded_A ["A"; "B"; "C"]))
  = [("Testing port: A...", None); ("✅ ESP32 found on A!", Some "A")].
Proof. reflexivity. Qed.

Lemma steps_nonempty (world : string -> port_behaviour) (ports : list string) :
  ports <> [] ->
  steps (auto_detect_esp32_port world ports) = probe_loop world ports.
Proof. destruct ports; [congruence | reflexivity]. Qed.

Lemma pong_not_raises (b : port_behaviour) :
  answers_pong b = true -> raises b = false.
Proof. destruct b; [discriminate.. | reflexivity]. Qed.

Lemma probed_probe_loop (world : string -> port_behaviour) (ports : list string) :
  match first_pong world ports with
  | None =>
      probed (probe_loop world ports) = ports
  | Some p =>
      exists before after,
        ports = (before ++ p :: after)%list /\
        probed (probe_loop world ports) = (before ++ [p])%list /\
        Forall (fun q => answers_pong (world q) = false) before /\
        answers_pong (world p) = true
  end.
Proof.
  unfold first_pong. induction ports as [|q ports IH]; [reflexivity|].
  rewrite DiscoveryFacts.probed_probe_loop_cons. cbn [find].
  destruct (answers_pong (world q)) eqn:Hq.
  - rewrite (pong_not_raises _ Hq).
    exists [], ports. repeat split; [constructor | exact Hq].
  - assert (E : (if raises (world q) then probed (probe_loop world ports)
                 else probed (probe_loop world ports))
                = probed (probe_loop world ports))
      by (destruct (raises (world q)); reflexivity).
    rewrite E.
    destruct (find (fun p => answers_pong (world p)) ports) as [p|].
    + destruct IH as (before & after & -> & Hp & Hb & Hpong).
      exists (q :: before), after. cbn [app]. rewrite Hp.
      repeat split; [now constructor | exact Hpong].
    + now rewrite IH.
Qed.

(** X1: the ports are opened in the order of the list, each once, up to
    and including the first that answers PONG; when none answers, every
    port is opened. *)
Theorem auto_detect_probes_prefix (world : string -> port_behaviour)
    (ports : list string) :
  match first_pong world ports with
  | None =>
      probed (steps (auto_detect_esp32_port world ports)) = ports
  | Some p =>
      exists before after,
        ports = (before ++ p :: after)%list /\
        probed (steps (auto_detect_esp32_port world ports))
        = (before ++ [p])%list /\
        Forall (fun q => answers_pong (world q) = false) before /\
        answers_pong (world p) = true
  end.
Proof.
  destruct ports as [|q ports]; [reflexivity|].
  rewrite steps_nonempty by discriminate. apply probed_probe_loop.
Qed.

Lemma events_probe_loop_last (world : string -> port_behaviour)
    (ports : list string) :
  last (events (probe_loop world ports))
  = Some match first_pong world ports with
         | Some p => ("✅ ESP32 found on " ++ p ++ "!", Some p)
         | None =>
             ("❌ Auto-detection failed. Please select the port manually.",
              None)
         end.
Proof.
  unfold first_pong. induction ports as [|q ports IH]; [reflexivity|].
  rewrite DiscoveryFacts.events_probe_loop_cons. cbn [find].
  assert (Hne : events (probe_loop world ports) <> []).
  { destruct ports as [|q' ports']; [discriminate|].
    rewrite DiscoveryFacts.events_probe_loop_cons. discriminate. }
  destruct (answers_pong (world q)) eqn:Hq.
  - rewrite (pong_not_raises _ Hq). reflexivity.
  - destruct (raises (world q)).
    + rewrite <- IH. destruct (events (probe_loop world ports)); [congruence|].
      reflexivity.
    + rewrite <- IH. destruct (events (probe_loop world ports)); [congruence|].
      reflexivity.
Qed.

(** X2: over a non-empty port list the last event is the success event
    carrying the first port that answers PONG, or, when no port answers
    PONG, the event asking for a manual selection. *)
Theorem auto_detect_last_event (world : string -> port_behaviour)
    (ports : list string) :
  ports <> [] ->
  last (events (steps (auto_detect_esp32_port world ports)))
  = Some match first_pong world ports with
         | Some p => ("✅ ESP32 found on " ++ p ++ "!", Some p)
         | None =>
             ("❌ Auto-detection failed. Please select the port manually.",
              None)
         end.
Proof.
  intros H. rewrite steps_nonempty by exact H. apply events_probe_loop_last.
Qed.

Lemma auto_detect_last_event_witness :
  last (events (steps (auto_detect_esp32_port busy_A ["A"; "B"; "C"])))
  = Some ("✅ ESP32 found on B!", Some "B").
Proof.
  exact (auto_detect_last_event busy_A ["A"; "B"; "C"] ltac:(discriminate)).
Defined.

Lemma events_probe_loop_value (world : string -> port_behaviour)
    (ports : list string) (m p : string) :
  In (m, Some p) (events (probe_loop world ports)) ->
  first_pong world ports = Some p /\ m = "✅ ESP32 found on " ++ p ++ "!".
Proof.
  unfold first_pong. induction ports as [|q ports IH].
  - intros [H|[]]. discriminate H.
  - rewrite DiscoveryFacts.events_probe_loop_cons. cbn [find].
    intros [H|H]; [discriminate H|].
    destruct (answers_pong (world q)) eqn:Hq.
    + rewrite (pong_not_raises _ Hq) in H.
      destruct H as [H|[]]. injection H as <- <-. now split.
    + destruct (raises (world q)).
      * destruct H as [H|H]; [discriminate H | now apply IH].
      * now apply IH.
Qed.

(** X3: an event hands a port to the caller only on success, and that port
    is the first of the list that answered PONG; every other event carries
    no port. *)
Theorem auto_detect_reports_only_pong (world : string -> port_behaviour)
    (ports : list string) (m p : string) :
  In (m, Some p) (events (steps (auto_detect_esp32_port world ports))) ->
  first_pong world ports = Some p
  /\ answers_pong (world p) = true
  /\ In p ports
  /\ m = "✅ ESP32 found on " ++ p ++ "!".
Proof.
  destruct ports as [|q ports]; [intros []|].
  rewrite steps_nonempty by discriminate. intros H.
  apply events_probe_loop_value in H as [Hf ->].
  split; [exact Hf|]. unfold first_pong in Hf.
  apply find_some in Hf as [Hin Hp]. now repeat split.
Qed.

Lemma auto_detect_reports_only_pong_witness :
  first_pong silent_A ["A"; "B"; "C"] = Some "B"
  /\ answers_pong (silent_A "B") = true
  /\ In "B" ["A"; "B"; "C"]
  /\ "✅ ESP32 found on B!" = "✅ ESP32 found on " ++ "B" ++ "!".
Proof.
  apply (auto_detect_reports_only_pong silent_A ["A"; "B"; "C"]).
  cbn. right. right. left. reflexivity.
Defined.

Lemma filter_other_port (p : string) (opened : list string)
    (world : string -> port_behaviour) :
  Forall (fun q => leaks (world q) = true) opened ->
  leaks (world p) = false ->
  List.filter (fun q => negb (String.eqb p q)) (opened ++ [p]) = opened.
Proof.
  intros Ho Hp. rewrite List.filter_app. cbn [List.filter].
  rewrite String.eqb_refl. cbn [negb]. rewrite app_nil_r.
  apply forallb_filter_id, forallb_forall. intros q Hq.
  rewrite List.Forall_forall in Ho. specialize (Ho q Hq).
  apply negb_true_iff, String.eqb_neq. intros ->. congruence.
Qed.

Lemma open_after_probe_loop (world : string -> port_behaviour)
    (ports opened : list string) :
  Forall (fun q => leaks (world q) = true) opened ->
  open_after opened (probe_loop world ports)
  = (opened ++
     List.filter (fun p => leaks (world p)) (probed (probe_loop world ports)))%list.
Proof.
  revert opened. induction ports as [|p ports IH]; intros opened Ho.
  - cbn. now rewrite app_nil_r.
  - rewrite DiscoveryFacts.probed_probe_loop_cons.
    cbn [probe_loop]. unfold testing at 1. cbn [open_after].
    rewrite DiscoveryFacts.open_after_app. unfold handshake.
    destruct (world p) as [| | |text] eqn:Hp;
      cbn [open_after app raises answers_pong List.filter];
      rewrite Hp; cbn [leaks].
    + unfold skipping at 1. cbn [open_after]. now apply IH.
    + unfold skipping at 1. cbn [open_after]. rewrite IH.
      * now rewrite <- app_assoc.
      * apply Forall_app. split; [exact Ho|]. constructor; [|constructor].
        now rewrite Hp.
    + unfold skipping at 1. cbn [open_after]. rewrite IH.
      * now rewrite <- app_assoc.
      * apply Forall_app. split; [exact Ho|]. constructor; [|constructor].
        now rewrite Hp.
    + rewrite (filter_other_port p opened world Ho) by now rewrite Hp.
      destruct (String.eqb (Text.strip text) "PONG").
      * cbn. now rewrite app_nil_r.
      * now apply IH.
Qed.

(** X4: the ports a run leaves open are the opened ports on which the
    write or the read raised, in the order they were tried; every other
    port the run opened has been closed. *)
Theorem auto_detect_open_ports (world : string -> port_behaviour)
    (ports : list string) :
  open_after [] (steps (auto_detect_esp32_port world ports))
  = List.filter (fun p => leaks (world p))
      (probed (steps (auto_detect_esp32_port world ports))).
Proof.
  destruct ports as [|q ports]; [reflexivity|].
  rewrite steps_nonempty by discriminate.
  now rewrite open_after_probe_loop.
Qed.

End DiscoveryRuns.

(** ** The normaliser on what the predictors return *)

Lemma lower_ascii_idem (c : ascii) :
  Text.lower_ascii (Text.lower_ascii c) = Text.lower_ascii c.
Proof. destruct c as [[] [] [] [] [] [] [] []]; reflexivity. Qed.

Lemma lower_idem (s : string) : Text.lower (Text.lower s) = Text.lower s.
Proof.
  induction s as [|c s IH]; [reflexivity|].
  cbn [Text.lower]. now rewrite lower_ascii_idem, IH.
Qed.

(** X5: the normaliser does not look at the case of a label: a label and
    its lowercase form are normalised alike, so any spelling whose lowercase
    is "stressed" returns the confidence itself. *)
Theorem get_stress_confidence_case_insensitive :
  (forall (label : string) (confidence : pyobj),
      get_stress_confidence label confidence
      = get_stress_confidence (Text.lower label) confidence) /\
  (forall (l1 l2 : string) (confidence : pyobj),
      Text.lower l1 = Text.lower l2 ->
      get_stress_confidence l1 confidence = get_stress_confidence l2 confidence) /\
  (forall (label : string) (c : Q),
      Text.lower label = "stressed" ->
      get_stress_confidence label (PyNum c) = c).
Proof.
  split; [|split].
  - intros label confidence. unfold get_stress_confidence.
    now rewrite lower_idem.
  - intros l1 l2 confidence E. unfold get_stress_confidence. now rewrite E.
  - intros label c E. unfold get_stress_confidence. now rewrite E.
Qed.

Lemma get_stress_confidence_case_insensitive_witness :
  get_stress_confidence "STRESSED" (PyNum (7 # 10)) = (7 # 10)%Q
  /\ get_stress_confidence "not stressed" (PyNum (7 # 10))
     = get_stress_confidence "Not Stressed" (PyNum (7 # 10)).
Proof.
  split.
  - apply (proj2 (proj2 get_stress_confidence_case_insensitive)). reflexivity.
  - apply (proj1 (proj2 get_stress_confidence_case_insensitive)). reflexivity.
Defined.

Lemma Qle_bool_false (a b : Q) : Qle_bool a b = false -> (b < a)%Q.
Proof.
  intros H. apply Qnot_le_lt. intros Hle.
  apply Qle_bool_iff in Hle. congruence.
Qed.

(** X6: when the audio or the physiological classifier runs, the
    normalised value falls on the side of 1/2 the classifier chose: a
    prediction of at least 1/2 is labelled Stressed and is itself the
    normalised value; a prediction below 1/2 is labelled Not Stressed and
    the normalised value is at most 1/2. *)
Theorem normalised_audio_physio_side :
  (forall (file : string) (prediction : Q),
      let r := predict_audio true (Some file) (Returned prediction) in
      ((1 # 2 <= prediction)%Q ->
       fst r = "Stressed" /\
       get_stress_confidence (fst r) (snd r) = prediction) /\
      ((prediction < 1 # 2)%Q ->
       fst r = "Not Stressed" /\
       (get_stress_confidence (fst r) (snd r) <= 1 # 2)%Q)) /\
  (forall (line : string) (prediction : Q),
      line <> "" ->
      let r := predict_physio_from_line true line (PhysioPrediction prediction) in
      ((1 # 2 <= prediction)%Q ->
       fst r = "Stressed" /\
       get_stress_confidence (fst r) (snd r) = prediction) /\
      ((prediction < 1 # 2)%Q ->
       fst r = "Not Stressed" /\
       (get_stress_confidence (fst r) (snd r) <= 1 # 2)%Q)).
Proof.
  assert (Hside : forall p : Q,
             let r := if Qle_bool (1 # 2) p
                      then ("Stressed", PyNum p)
                      else ("Not Stressed", PyNum (1 - p)) in
             ((1 # 2 <= p)%Q ->
              fst r = "Stressed" /\ get_stress_confidence (fst r) (snd r) = p) /\
             ((p < 1 # 2)%Q ->
              fst r = "Not Stressed" /\
              (get_stress_confidence (fst r) (snd r) <= 1 # 2)%Q)).
  { intros p. cbv zeta. destruct (Qle_bool (1 # 2) p) eqn:Hp; cbn [fst snd].
    - apply Qle_bool_iff in Hp. split.
      + intros _. split; [reflexivity | apply get_stress_confidence_stressed].
      + intros H. lra.
    - apply Qle_bool_false in Hp. split.
      + intros H. lra.
      + intros _. split; [reflexivity|].
        rewrite get_stress_confidence_not_stressed. lra. }
  split.
  - intros file p. cbn [predict_audio negb]. apply Hside.
  - intros line p Hline. apply String.eqb_neq in Hline.
    cbn [predict_physio_from_line negb]. rewrite Hline. apply Hside.
Qed.

Lemma normalised_audio_physio_side_witness :
  fst (predict_physio_from_line true "{}" (PhysioPrediction (1 # 5)))
  = "Not Stressed"
  /\ (get_stress_confidence
        (fst (predict_physio_from_line true "{}" (PhysioPrediction (1 # 5))))
        (snd (predict_physio_from_line true "{}" (PhysioPrediction (1 # 5))))
      <= 1 # 2)%Q.
Proof.
  apply (proj2 normalised_audio_physio_side "{}" (1 # 5)%Q).
  - discriminate.
  - reflexivity.
Defined.

(** X7: the survey predictor labels by the probability [pred_prob] but
    returns that probability itself as the confidence.  Normalised, a
    survey result is therefore the larger of [pred_prob] and
    [1 - pred_prob], and no survey result, available or not, is ever
    normalised below 1/2. *)
Theorem normalised_survey_at_least_half :
  (forall pred_prob : Q,
      let r := predict_dass21 true true (Returned pred_prob) in
      (get_stress_confidence (fst r) (snd r)
       == Qmax pred_prob (1 - pred_prob))%Q) /\
  (forall (loaded answered : bool) (run : attempt Q),
      let r := predict_dass21 loaded answered run in
      (1 # 2 <= get_stress_confidence (fst r) (snd r))%Q).
Proof.
  assert (Hrun : forall p : Q,
             let r := predict_dass21 true true (Returned p) in
             (get_stress_confidence (fst r) (snd r) == Qmax p (1 - p))%Q).
  { intros p. cbn [predict_dass21 negb].
    destruct (Qle_bool (1 # 2) p) eqn:Hp; cbn [fst snd].
    - apply Qle_bool_iff in Hp. rewrite get_stress_confidence_stressed.
      symmetry. apply Q.max_l. lra.
    - apply Qle_bool_false in Hp. rewrite get_stress_confidence_not_stressed.
      symmetry. apply Q.max_r. lra. }
  split; [exact Hrun|].
  intros loaded answered run.
  destruct loaded; [|cbn; discriminate].
  destruct answered; [|cbn; discriminate].
  destruct run as [e|p].
  - cbn [predict_dass21 negb fst snd].
    rewrite get_stress_confidence_error; [discriminate|].
    now apply (error_label_app "Error with DASS-21 input: ").
  - cbv zeta. rewrite (Hrun p).
    destruct (Qlt_le_dec p (1 # 2)).
    + rewrite Q.max_r by lra. lra.
    + rewrite Q.max_l by lra. lra.
Qed.

Lemma get_stress_confidence_unit (label : string) (confidence : pyobj) :
  (forall c : Q, float_of confidence = Some c -> 0 <= c <= 1)%Q ->
  (0 <= get_stress_confidence label confidence <= 1)%Q.
Proof.
  intros Hc. unfold get_stress_confidence.
  destruct (Text.contains "error" (Text.lower label)); [lra|].
  destruct (float_of confidence) as [c|] eqn:E.
  - specialize (Hc c eq_refl).
    destruct (String.eqb (Text.lower label) "stressed"); lra.
  - destruct (String.eqb (Text.lower label) "stressed"); lra.
Qed.

Lemma half_unit (c : Q) : float_of half = Some c -> (0 <= c <= 1)%Q.
Proof. intros E. injection E as <-. lra. Qed.

(** X8: as long as the models put out probabilities, that is values of
    [0,1], whatever a predictor returns is normalised into [0,1]: failed
    runs, missing inputs and missing models included. *)
Theorem normalised_modality_in_unit_interval :
  (forall loaded file run,
      (forall p, run = Returned p -> 0 <= p <= 1)%Q ->
      let r := predict_audio loaded file run in
      (0 <= get_stress_confidence (fst r) (snd r) <= 1)%Q) /\
  (forall loaded photo run,
      (forall k p, run = Returned (k, p) -> 0 <= p <= 1)%Q ->
      let r := predict_facial loaded photo run in
      (0 <= get_stress_confidence (fst r) (snd r) <= 1)%Q) /\
  (forall loaded line run,
      (forall p, run = PhysioPrediction p -> 0 <= p <= 1)%Q ->
      let r := predict_physio_from_line loaded line run in
      (0 <= get_stress_confidence (fst r) (snd r) <= 1)%Q) /\
  (forall loaded answered run,
      (forall p, run = Returned p -> 0 <= p <= 1)%Q ->
      let r := predict_dass21 loaded answered run in
      (0 <= get_stress_confidence (fst r) (snd r) <= 1)%Q).
Proof.
  split; [|split; [|split]].
  - intros loaded file run Hp r. subst r. apply get_stress_confidence_unit.
    unfold predict_audio. destruct loaded; cbn [negb]; [|exact half_unit].
    destruct file; [|exact half_unit]. destruct run as [e|p]; [exact half_unit|].
    specialize (Hp p eq_refl).
    destruct (Qle_bool (1 # 2) p); cbn; intros c E; injection E as <-; lra.
  - intros loaded photo run Hp r. subst r. apply get_stress_confidence_unit.
    unfold predict_facial. destruct loaded; cbn [negb]; [|exact half_unit].
    destruct photo; [|exact half_unit].
    destruct run as [e|[k p]]; [exact half_unit|].
    specialize (Hp k p eq_refl). cbn. intros c E; injection E as <-; lra.
  - intros loaded line run Hp r. subst r. apply get_stress_confidence_unit.
    unfold predict_physio_from_line.
    destruct loaded; cbn [negb]; [|exact half_unit].
    destruct (String.eqb line ""); [exact half_unit|].
    destruct run as [name| |p]; [exact half_unit..|].
    specialize (Hp p eq_refl).
    destruct (Qle_bool (1 # 2) p); cbn; intros c E; injection E as <-; lra.
  - intros loaded answered run Hp r. subst r. apply get_stress_confidence_unit.
    unfold predict_dass21. destruct loaded; cbn [negb]; [|exact half_unit].
    destruct answered; cbn [negb]; [|exact half_unit].
    destruct run as [e|p]; [exact half_unit|].
    specialize (Hp p eq_refl). cbn. intros c E; injection E as <-; lra.
Qed.

Lemma normalised_modality_in_unit_interval_witness :
  (0 <= get_stress_confidence
          (fst (predict_audio true (Some "a.wav") (Returned (1 # 4))))
          (snd (predict_audio true (Some "a.wav") (Returned (1 # 4)))) <= 1)%Q.
Proof.
  apply (proj1 normalised_modality_in_unit_interval true (Some "a.wav")
           (Returned (1 # 4)%Q)).
  intros p E. injection E as <-. lra.
Defined.

(** ** Fusion stays among the estimates it is given *)

Lemma py_sum_nonneg (l : list Q) :
  (forall a, In a l -> 0 <= a)%Q -> (0 <= py_sum l)%Q.
Proof.
  induction l as [|a l IH]; intros H.
  - rewrite py_sum_nil. lra.
  - rewrite py_sum_cons.
    assert (0 <= a)%Q by (apply H; now left).
    assert (0 <= py_sum l)%Q by (apply IH; intros b Hb; apply H; now right).
    lra.
Qed.

Lemma closeness_term_nonneg (a b : Q) :
  (0 <= a <= 1)%Q -> (0 <= b <= 1)%Q -> (0 <= 1 - Qabs (a - b))%Q.
Proof.
  intros Ha Hb.
  assert (Qabs (a - b) <= 1)%Q by (apply Qabs_Qle_condition; split; lra).
  lra.
Qed.

Lemma inject_Z_pred_pos (n : nat) :
  (2 <= n)%nat -> (0 < inject_Z (Z.of_nat n - 1))%Q.
Proof.
  intros H. change 0%Q with (inject_Z 0). rewrite <- Zlt_Qlt. lia.
Qed.

Lemma inject_Z_len_pos (n : nat) :
  (1 <= n)%nat -> (0 < inject_Z (Z.of_nat n))%Q.
Proof.
  intros H. change 0%Q with (inject_Z 0). rewrite <- Zlt_Qlt. lia.
Qed.

Lemma agree_score_nonneg (v : list Q) (i : nat) :
  (forall a, In a v -> 0 <= a <= 1)%Q ->
  (2 <= length v)%nat -> (i < length v)%nat ->
  (0 <= agree_score v i)%Q.
Proof.
  intros Hv Hl Hi. unfold agree_score.
  apply Qle_shift_div_l; [now apply inject_Z_pred_pos|].
  rewrite Qmult_0_l. apply py_sum_nonneg.
  intros t Ht. apply in_map_iff in Ht as (j & <- & Hj).
  apply filter_In in Hj as [Hj _]. apply in_seq in Hj.
  apply closeness_term_nonneg; apply Hv, nth_In; lia.
Qed.

Lemma agree_scores_nonneg (v : list Q) :
  (forall a, In a v -> 0 <= a <= 1)%Q -> (2 <= length v)%nat ->
  forall w, In w (agree_scores v) -> (0 <= w)%Q.
Proof.
  intros Hv Hl w Hw. unfold agree_scores in Hw.
  apply in_map_iff in Hw as (i & <- & Hi). apply in_seq in Hi.
  apply agree_score_nonneg; [exact Hv | exact Hl | lia].
Qed.

(** A sum weighted by non-negative weights lies between the bounds of its
    terms, scaled by the total weight. *)
Lemma dot_bounds (lo hi : Q) (w v : list Q) :
  length w = length v ->
  (forall a, In a w -> 0 <= a)%Q ->
  (forall b, In b v -> lo <= b <= hi)%Q ->
  (lo * py_sum w <= dot w v <= hi * py_sum w)%Q.
Proof.
  unfold dot. revert v. induction w as [|a w IH]; intros v Hlen Hw Hv.
  - cbn [combine map]. rewrite py_sum_nil. lra.
  - destruct v as [|b v]; [discriminate|]. cbn [combine map fst snd].
    rewrite !py_sum_cons.
    assert (Ha : (0 <= a)%Q) by (apply Hw; now left).
    assert (Hb : (lo <= b <= hi)%Q) by (apply Hv; now left).
    assert (IH' : (lo * py_sum w
                   <= py_sum (map (fun ab => (fst ab * snd ab)%Q) (combine w v))
                   <= hi * py_sum w)%Q).
    { apply IH.
      - now injection Hlen.
      - intros x Hx. apply Hw. now right.
      - intros x Hx. apply Hv. now right. }
    assert (lo * a <= a * b)%Q by nra.
    assert (a * b <= hi * a)%Q by nra.
    split; lra.
Qed.

Lemma py_sum_bounds (lo hi : Q) (v : list Q) :
  (forall b, In b v -> lo <= b <= hi)%Q ->
  (lo * inject_Z (Z.of_nat (length v)) <= py_sum v
   <= hi * inject_Z (Z.of_nat (length v)))%Q.
Proof.
  induction v as [|b v IH]; intros Hv.
  - rewrite py_sum_nil. cbn [length]. change (inject_Z (Z.of_nat 0)) with 0%Q.
    lra.
  - cbn [length]. rewrite py_sum_cons, Nat2Z.inj_succ. unfold Z.succ.
    rewrite inject_Z_plus.
    assert (lo <= b <= hi)%Q by (apply Hv; now left).
    assert (lo * inject_Z (Z.of_nat (length v)) <= py_sum v
            <= hi * inject_Z (Z.of_nat (length v)))%Q
      by (apply IH; intros x Hx; apply Hv; now right).
    change (inject_Z 1) with 1%Q. split; lra.
Qed.

Lemma mean_bounds (lo hi : Q) (v : list Q) :
  (1 <= length v)%nat ->
  (forall b, In b v -> lo <= b <= hi)%Q ->
  (lo <= mean v <= hi)%Q.
Proof.
  intros Hl Hv. unfold mean.
  pose proof (inject_Z_len_pos _ Hl) as Hpos.
  pose proof (py_sum_bounds lo hi v Hv) as [H1 H2].
  split.
  - now apply Qle_shift_div_l.
  - now apply Qle_shift_div_r.
Qed.

Lemma agreement_fusion_between (lo hi : Q) (l : list Q) :
  (forall c, In c (valid_confidences l) -> 0 <= c <= 1)%Q ->
  (forall c, In c (valid_confidences l) -> lo <= c <= hi)%Q ->
  valid_confidences l <> [] ->
  (lo <= agreement_fusion l <= hi)%Q.
Proof.
  intros Hunit Hv Hne.
  destruct (valid_confidences l) as [|a [|b t]] eqn:E.
  - congruence.
  - rewrite (agreement_fusion_one l a E). apply Hv. now left.
  - assert (Hl : (2 <= length (valid_confidences l))%nat)
      by (rewrite E; cbn [length]; lia).
    rewrite (agreement_fusion_many l Hl). rewrite <- E in *.
    set (v := valid_confidences l) in *.
    destruct (Qlt_bool (py_sum (agree_scores v)) (1 # 1000000000)) eqn:Hs.
    + apply mean_bounds; [lia | exact Hv].
    + unfold Qlt_bool in Hs. apply negb_false_iff, Qle_bool_iff in Hs.
      assert (Hpos : (0 < py_sum (agree_scores v))%Q) by lra.
      assert (Hd : (lo * py_sum (agree_scores v) <= dot (agree_scores v) v
                    <= hi * py_sum (agree_scores v))%Q).
      { apply dot_bounds.
        - unfold agree_scores. now rewrite length_map, length_seq.
        - now apply agree_scores_nonneg.
        - exact Hv. }
      destruct Hd as [H1 H2]. split.
      * now apply Qle_shift_div_l.
      * now apply Qle_shift_div_r.
Qed.

(** X10: the fused score of inputs in [0,1] is in [0,1]. *)
Theorem agreement_fusion_in_unit_interval (l : list Q) :
  Forall (fun c => 0 <= c <= 1)%Q l ->
  (0 <= agreement_fusion l <= 1)%Q.
Proof.
  intros Hunit.
  destruct (valid_confidences l) as [|a t] eqn:E.
  - rewrite (agreement_fusion_none l E). lra.
  - rewrite List.Forall_forall in Hunit.
    assert (Hv : (forall c, In c (valid_confidences l) -> 0 <= c <= 1)%Q).
    { intros c Hc. apply valid_confidences_In in Hc as [Hc _]. now apply Hunit. }
    apply agreement_fusion_between; [exact Hv | exact Hv |].
    rewrite E. discriminate.
Qed.

Lemma agreement_fusion_in_unit_interval_witness :
  (0 <= agreement_fusion [9 # 10; 85 # 100; 1 # 10; 1 # 2] <= 1)%Q.
Proof.
  apply agreement_fusion_in_unit_interval.
  repeat constructor; cbn; lra.
Defined.

(** X11: unanimity decides the label.  For inputs in [0,1]: when no
    input is below 1/2 the overall label is Stressed (also when all are
    1/2); when there is an input other than 1/2 and every such input is at
    most [hi] with [hi < 1/2], the overall label is Not Stressed. *)
Theorem overall_label_unanimous :
  (forall l : list Q,
      Forall (fun c => 1 # 2 <= c <= 1)%Q l ->
      overall_label (agreement_fusion l) = "Stressed") /\
  (forall (hi : Q) (l : list Q),
      (hi < 1 # 2)%Q ->
      Forall (fun c => c == 1 # 2 \/ 0 <= c <= hi)%Q l ->
      Exists (fun c => ~ c == 1 # 2)%Q l ->
      overall_label (agreement_fusion l) = "Not Stressed").
Proof.
  split.
  - intros l Hl. unfold overall_label.
    assert (H : (1 # 2 <= agreement_fusion l)%Q).
    { destruct (valid_confidences l) as [|a t] eqn:E.
      - rewrite (agreement_fusion_none l E). lra.
      - rewrite List.Forall_forall in Hl.
        apply (agreement_fusion_between (1 # 2) 1).
        + intros c Hc. apply valid_confidences_In in Hc as [Hc _].
          specialize (Hl c Hc). cbv beta in Hl. lra.
        + intros c Hc. apply valid_confidences_In in Hc as [Hc _].
          now apply Hl.
        + rewrite E. discriminate. }
    apply Qle_bool_iff in H. now rewrite H.
  - intros hi l Hhi Hl Hex. unfold overall_label.
    assert (H : (agreement_fusion l <= hi)%Q).
    { rewrite List.Forall_forall in Hl.
      apply (agreement_fusion_between 0 hi).
      - intros c Hc. apply valid_confidences_In in Hc as [Hc Hne].
        destruct (Hl c Hc); [tauto | lra].
      - intros c Hc. apply valid_confidences_In in Hc as [Hc Hne].
        destruct (Hl c Hc); tauto.
      - apply List.Exists_exists in Hex as (c & Hc & Hne). intros E.
        assert (Hin : In c (valid_confidences l))
          by now apply valid_confidences_In.
        rewrite E in Hin. destruct Hin. }
    destruct (Qle_bool (1 # 2) (agreement_fusion l)) eqn:Hb; [|reflexivity].
    apply Qle_bool_iff in Hb. lra.
Qed.

Lemma overall_label_unanimous_witness :
  overall_label (agreement_fusion [9 # 10; 1 # 2; 6 # 10; 1]%Q) = "Stressed"
  /\ overall_label (agreement_fusion [1 # 10; 1 # 2; 3 # 10; 1 # 2])
     = "Not Stressed".
Proof.
  split.
  - apply (proj1 overall_label_unanimous).
    repeat constructor; cbn; lra.
  - apply (proj2 overall_label_unanimous (3 # 10)%Q).
    + reflexivity.
    + constructor; [right; lra|]. constructor; [left; reflexivity|].
      constructor; [right; lra|]. constructor; [left; reflexivity|].
      constructor.
    + constructor. discriminate.
Defined.

(** ** Neutral estimates *)

Lemma valid_confidences_app (l1 l2 : list Q) :
  valid_confidences (l1 ++ l2)
  = (valid_confidences l1 ++ valid_confidences l2)%list.
Proof. unfold valid_confidences. apply List.filter_app. Qed.

Lemma agreement_fusion_valid (l l' : list Q) :
  valid_confidences l = valid_confidences l' ->
  agreement_fusion l = agreement_fusion l'.
Proof. unfold agreement_fusion. now intros ->. Qed.

(** X14: an input equal to 1/2 has no influence: inserting it anywhere,
    or removing it, leaves the fused score as it was. *)
Theorem agreement_fusion_ignores_neutral (l1 l2 : list Q) (c : Q) :
  (c == 1 # 2)%Q ->
  agreement_fusion (l1 ++ c :: l2) = agreement_fusion (l1 ++ l2).
Proof.
  intros Hc. apply agreement_fusion_valid.
  rewrite !valid_confidences_app. f_equal.
  unfold valid_confidences. cbn [List.filter].
  apply Qeq_bool_iff in Hc. now rewrite Hc.
Qed.

Lemma agreement_fusion_ignores_neutral_witness :
  agreement_fusion [9 # 10; 2 # 4; 1 # 10]%Q = agreement_fusion [9 # 10; 1 # 10]%Q.
Proof.
  apply (agreement_fusion_ignores_neutral [9 # 10]%Q [1 # 10]%Q (2 # 4)%Q).
  reflexivity.
Defined.

(** ** No division by zero *)

Lemma py_div_nonzero (a b : Q) : ~ (b == 0)%Q -> py_div a b = Some (a / b)%Q.
Proof.
  intros H. unfold py_div.
  destruct (Qeq_bool b 0) eqn:E; [|reflexivity].
  apply Qeq_bool_iff in E. contradiction.
Qed.

Lemma collect_map_Some {A : Type} (f : A -> Q) (g : A -> option Q) (l : list A) :
  (forall a, In a l -> g a = Some (f a)) ->
  collect (map g l) = Some (map f l).
Proof.
  induction l as [|a l IH]; intros H; [reflexivity|].
  cbn [map collect]. rewrite (H a) by now left.
  rewrite IH; [reflexivity|]. intros b Hb. apply H. now right.
Qed.

(** X15: [agreement_fusion] never divides by zero: with every division
    checked it still returns, and returns the same score.  Fewer than two
    usable inputs are answered before any division; with two or more,
    [M - 1] and [M] are positive and the last divisor is at least 1e-9. *)
Theorem agreement_fusion_divisions_defined (l : list Q) :
  agreement_fusion_checked l = Some (agreement_fusion l).
Proof.
  unfold agreement_fusion_checked, agreement_fusion.
  destruct (valid_confidences l) as [|a [|b t]] eqn:E; [reflexivity..|].
  set (v := a :: b :: t).
  assert (Hl : (2 <= length v)%nat) by (cbn [v length]; lia).
  assert (Hs : collect (map (agree_score_checked v) (seq 0 (length v)))
               = Some (agree_scores v)).
  { apply collect_map_Some. intros i _. unfold agree_score_checked, agree_score.
    apply py_div_nonzero. pose proof (inject_Z_pred_pos _ Hl). lra. }
  rewrite Hs.
  destruct (Qlt_bool (py_sum (agree_scores v)) (1 # 1000000000)) eqn:Hb.
  - unfold mean. apply py_div_nonzero.
    pose proof (inject_Z_len_pos (length v) ltac:(lia)). lra.
  - apply py_div_nonzero.
    unfold Qlt_bool in Hb. apply negb_false_iff, Qle_bool_iff in Hb. lra.
Qed.

(** ** The fusion request *)

Lemma fused_score_all_half (results : list (string * pyobj)) :
  Forall (fun r => get_stress_confidence (fst r) (snd r) = (1 # 2)%Q) results ->
  fused_score results = (1 # 2)%Q.
Proof.
  intros H. unfold fused_score. apply agreement_fusion_none.
  induction H as [|r results Hr _ IH]; [reflexivity|].
  cbn [map]. unfold valid_confidences in *. cbn [List.filter].
  rewrite Hr. exact IH.
Qed.

(** X16: when none of the classifiers could run, whatever the reasons,
    the fused score is exactly 1/2 and the report reads Stressed. *)
Theorem fused_score_without_information (results : list (string * pyobj)) :
  Forall modality_result results ->
  Forall (fun r => label_of (fst r) = Unavailable) results ->
  fused_score results = (1 # 2)%Q
  /\ overall_label (fused_score results) = "Stressed".
Proof.
  intros Hm Hu.
  assert (E : fused_score results = (1 # 2)%Q).
  { apply fused_score_all_half.
    rewrite List.Forall_forall in *. intros r Hr.
    apply unavailable_result_half; [now apply Hm | now apply Hu]. }
  split; [exact E|]. now rewrite E.
Qed.

Lemma fused_score_without_information_witness :
  let results :=
    [predict_audio true None (Returned (9 # 10)%Q);
     predict_facial false (Some "face.png") (Returned (1%nat, (9 # 10)%Q));
     predict_physio_from_line true "" (PhysioPrediction (9 # 10));
     predict_dass21 true true (Raised "bad shape")] in
  fused_score results = (1 # 2)%Q
  /\ overall_label (fused_score results) = "Stressed".
Proof.
  intros results. apply fused_score_without_information.
  - repeat constructor.
  - repeat constructor.
Defined.

(** X17: the four models are loaded under one [try], so one model that
    fails to load leaves all four predictors without a model: every
    request is then answered with the score 1/2 and the label Stressed,
    whatever the inputs, the scalers and the telemetry. *)
Theorem one_missing_model_disables_fusion {M S : Type}
    (facial audio dass21 physio : attempt M)
    (scalers : option S * option S) (latest : string) (rq : request) :
  (exists e, facial = Raised e \/ audio = Raised e \/
             dass21 = Raised e \/ physio = Raised e) ->
  load_models facial audio dass21 physio = (None, None, None, None)
  /\ fused_stress_prediction (load_models facial audio dass21 physio)
       scalers latest rq
     = ((1 # 2)%Q, "Stressed").
Proof.
  intros (e & H).
  assert (E : load_models facial audio dass21 physio = (None, None, None, None)).
  { unfold load_models.
    destruct facial, audio, dass21, physio; try reflexivity.
    destruct H as [H|[H|[H|H]]]; discriminate H. }
  split; [exact E|]. rewrite E. destruct scalers as [ds ps].
  reflexivity.
Qed.

Lemma one_missing_model_disables_fusion_witness :
  fused_stress_prediction
    (load_models (Returned tt) (Returned tt) (Raised "file not found")
       (Returned tt))
    (load_scalers (Returned tt) (Returned tt)) "{}"
    {| audio_file := Some "a.wav"; audio_run := Returned (9 # 10)%Q;
       photo_path := Some "face.png";
       facial_run := Returned (1%nat, (9 # 10)%Q);
       physio_outcome := PhysioPrediction (9 # 10);
       survey_answered := true; survey_run := Returned (9 # 10)%Q |}
  = ((1 # 2)%Q, "Stressed").
Proof.
  apply one_missing_model_disables_fusion.
  exists "file not found". right. right. left. reflexivity.
Defined.

(** ** More on the device session *)

Module SessionRuns.
Import Session.

Section Scan.

Variable json_loads : string -> loads_outcome.

(** The ways through [scan_bt_data], by what they do to the globals. *)
Lemma scan_bt_data_cases (st : state) (rd : read_outcome) (now : string) :
  let out := scan_bt_data json_loads st rd now in
  bt_serial (snd out) = bt_serial st /\
  (snd out = st \/
   exists text parsed_data,
     rd = ReadText text /\
     bt_serial st = Some true /\
     Text.strip text <> "" /\
     json_loads (Text.strip text) = Loaded parsed_data /\
     sensor_log (snd out) = <[now := parsed_data]> (sensor_log st) /\
     latest_line (snd out) = Text.strip text /\
     fst out = "Time: " ++ now ++ Text.nl ++ "Data: " ++ Text.strip text ++ " ✅").
Proof.
  unfold scan_bt_data.
  destruct (bt_serial st) as [[|]|] eqn:Hopen;
    [|split; [cbn [snd]; congruence | now left]..].
  destruct rd as [e|text]; [split; [cbn [snd]; congruence | now left]|].
  destruct (String.eqb (Text.strip text) "") eqn:Hline;
    [split; [cbn [snd]; congruence | now left]|].
  destruct (json_loads (Text.strip text)) as [d| |e] eqn:Hjson;
    [|split; [cbn [snd]; congruence | now left]..].
  cbn [fst snd bt_serial sensor_log latest_line]. split; [reflexivity|].
  right. exists text, d. apply String.eqb_neq in Hline. now repeat split.
Qed.


Lemma consistent_perform (st : state) (a : action) :
  consistent json_loads st -> consistent json_loads (perform json_loads st a).
Proof.
  intros Hst. destruct a as [rd now|p e|p]; cbn [perform].
  - destruct (scan_bt_data_cases st rd now) as [_ [->|H]]; [exact Hst|].
    destruct H as (text & d & _ & _ & Hline & Hjson & Hlog & Hlatest & _).
    unfold consistent. rewrite Hlog, Hlatest. split.
    + split; [intros H; now apply insert_non_empty in H | congruence].
    + intros _. exists now, d. split; [exact Hjson | apply lookup_insert_eq].
  - unfold connect_to_port. destruct (String.eqb p ""); [exact Hst|].
    destruct e; exact Hst.
  - unfold connect_to_port. destruct (String.eqb p ""); exact Hst.
Qed.

Lemma consistent_initial : consistent json_loads initial.
Proof.
  split.
  - split; reflexivity.
  - intros H. now contradiction H.
Qed.

Lemma consistent_perform_all (st : state) (l : list action) :
  consistent json_loads st -> consistent json_loads (perform_all json_loads st l).
Proof.
  revert st. induction l as [|a l IH]; intros st Hst; [exact Hst|].
  cbn [perform_all fold_left]. apply IH. now apply consistent_perform.
Qed.

(** X19: in every state a session reaches from start-up, the log is
    empty exactly when there is no latest line, and a latest line is a line
    [json.loads] accepts whose reading is in the log. *)
Theorem session_globals_consistent (l : list action) :
  consistent json_loads (perform_all json_loads initial l).
Proof. apply consistent_perform_all, consistent_initial. Qed.

Lemma keys_perform_all (st : state) (l : list action) (k : string) :
  is_Some (sensor_log (perform_all json_loads st l) !! k) ->
  is_Some (sensor_log st !! k) \/ Exists (stamped k) l.
Proof.
  revert st. induction l as [|a l IH]; intros st H; [now left|].
  cbn [perform_all fold_left] in H. apply IH in H as [H|H].
  - destruct a as [rd now|p e|p].
    + cbn [perform] in H.
      destruct (scan_bt_data_cases st rd now) as [_ [E|E]].
      * rewrite E in H. now left.
      * destruct E as (text & d & _ & _ & _ & _ & Hlog & _).
        rewrite Hlog in H. apply lookup_insert_is_Some in H as [<-|[_ H]].
        -- right. now left.
        -- now left.
    + left. rewrite <- (SessionFacts.lookup_perform_other json_loads st
                          (Connect p e) k); [exact H | tauto].
    + left. rewrite <- (SessionFacts.lookup_perform_other json_loads st
                          (ConnectEscaping p) k); [exact H | tauto].
  - right. now right.
Qed.

Lemma size_perform (st : state) (a : action) :
  (size (sensor_log (perform json_loads st a))
   <= size (sensor_log st) + scans [a])%nat.
Proof.
  destruct (SessionFacts.sensor_log_perform json_loads st a)
    as [->|(rd & now & d & -> & ->)]; [lia|].
  rewrite map_size_insert. unfold scans. cbn [List.filter length].
  destruct (sensor_log st !! now); unfold id; lia.
Qed.

Lemma size_perform_all (st : state) (l : list action) :
  (size (sensor_log (perform_all json_loads st l))
   <= size (sensor_log st) + scans l)%nat.
Proof.
  revert st. induction l as [|a l IH]; intros st; [cbn [perform_all fold_left]; lia|].
  cbn [perform_all fold_left]. specialize (IH (perform json_loads st a)).
  pose proof (size_perform st a) as H.
  unfold perform_all in IH. unfold scans in *. cbn [List.filter] in *.
  destruct a; cbn [length] in *; lia.
Qed.

(** X20: every key of the log is the timestamp of a scan that was made,
    and the log has at most as many entries as scans were made. *)
Theorem sensor_log_keys_are_scan_times (l : list action) :
  (forall k : string,
      is_Some (sensor_log (perform_all json_loads initial l) !! k) ->
      Exists (stamped k) l) /\
  (size (sensor_log (perform_all json_loads initial l)) <= scans l)%nat.
Proof.
  split.
  - intros k H. apply keys_perform_all in H as [H|H]; [|exact H].
    cbn in H. rewrite lookup_empty in H. now destruct H.
  - pose proof (size_perform_all initial l) as H.
    cbn [initial sensor_log] in H. rewrite map_size_empty in H. lia.
Qed.

(** X21: binding or unbinding a port leaves the log and the latest line
    alone.  The session is open afterwards exactly when a port was named
    and opened; otherwise the next scan only reports that nothing is
    connected and changes nothing. *)
Theorem connect_to_port_effect (st : state) (port_name : string)
    (open_error : option string) :
  let st' := snd (connect_to_port st port_name open_error) in
  sensor_log st' = sensor_log st /\
  latest_line st' = latest_line st /\
  (bt_serial st' = Some true <-> port_name <> "" /\ open_error = None) /\
  (~ (port_name <> "" /\ open_error = None) ->
   forall rd now,
     scan_bt_data json_loads st' rd now
     = ("Bluetooth not connected. Select a port first. 🚫", st')).
Proof.
  unfold connect_to_port.
  destruct (String.eqb port_name "") eqn:Hp.
  - apply String.eqb_eq in Hp. cbn [snd sensor_log latest_line bt_serial].
    repeat split; try discriminate; try tauto.
  - apply String.eqb_neq in Hp. destruct open_error as [e|];
      cbn [snd sensor_log latest_line bt_serial].
    + repeat split; try discriminate; try tauto;
        try (intros [_ H]; discriminate H).
    + repeat split; try tauto; try (intros H; exfalso; apply H; now split).
Qed.

End Scan.

Lemma sensor_log_keys_are_scan_times_witness :
  Exists (stamped "2025-01-01 10:00:00")
    [Connect "COM3" None; Scan (ReadText "1") "2025-01-01 10:00:00"].
Proof.
  apply (proj1 (sensor_log_keys_are_scan_times sample_loads
                  [Connect "COM3" None;
                   Scan (ReadText "1") "2025-01-01 10:00:00"])).
  exists (JNum 1). reflexivity.
Defined.

Lemma connect_to_port_effect_witness :
  let st := perform sample_loads bound (Scan (ReadText "1") "2025-01-01 10:00:00") in
  let st' := snd (connect_to_port st "COM9" (Some "access denied")) in
  scan_bt_data sample_loads st' (ReadText "2") "2025-01-01 10:00:01"
  = ("Bluetooth not connected. Select a port first. 🚫", st').
Proof.
  intros st st'.
  apply (proj2 (proj2 (proj2 (connect_to_port_effect sample_loads st "COM9"
                                (Some "access denied"))))).
  intros [_ H]. discriminate H.
Defined.

(** X22: the physiological modality follows the log.  As long as the
    session has an empty log, the physiological result is normalised to
    1/2 and the fused score is the fusion of the three other modalities;
    once the log has an entry, the physiological predictor, given its
    model, no longer answers that no data is available. *)
Theorem physio_follows_log {M S : Type}
    (json_loads : string -> loads_outcome) (l : list action)
    (facial_model audio_model dass21_model physio_model : option M)
    (dass21_scaler physio_scaler : option S) (rq : request) :
  let st := perform_all json_loads initial l in
  let models := (facial_model, audio_model, dass21_model, physio_model) in
  let scalers := (dass21_scaler, physio_scaler) in
  (sensor_log st = ∅ ->
   fst (fused_stress_prediction models scalers (latest_line st) rq)
   = fused_score
       [predict_audio (loaded audio_model) (audio_file rq) (audio_run rq);
        predict_facial (loaded facial_model) (photo_path rq) (facial_run rq);
        predict_dass21 (loaded dass21_model && loaded dass21_scaler)
          (survey_answered rq) (survey_run rq)]) /\
  (sensor_log st <> ∅ ->
   fst (predict_physio_from_line true (latest_line st) (physio_outcome rq))
   <> "Physio: No data available from ESP32. ⏳").
Proof.
  intros st models scalers.
  destruct (consistent_perform_all json_loads initial l
              (consistent_initial json_loads)) as [Hiff _].
  fold st in Hiff. split.
  - intros Hlog. apply Hiff in Hlog.
    unfold fused_stress_prediction, fused_score, models, scalers.
    cbn [fst modality_results map]. rewrite Hlog.
    set (a := get_stress_confidence _ _).
    set (f := get_stress_confidence _ _).
    set (d := get_stress_confidence (fst (predict_dass21 _ _ _)) _).
    assert (Ep : get_stress_confidence
                   (fst (predict_physio_from_line
                           (loaded physio_model && loaded physio_scaler) ""
                           (physio_outcome rq)))
                   (snd (predict_physio_from_line
                           (loaded physio_model && loaded physio_scaler) ""
                           (physio_outcome rq))) = (1 # 2)%Q).
    { destruct (loaded physio_model && loaded physio_scaler); reflexivity. }
    rewrite Ep. apply agreement_fusion_valid.
    change [a; f; (1 # 2)%Q; d] with ([a; f] ++ (1 # 2)%Q :: [d])%list.
    change [a; f; d] with ([a; f] ++ [d])%list.
    rewrite !valid_confidences_app. reflexivity.
  - intros Hlog.
    assert (Hline : latest_line st <> "") by (intros E; now apply Hlog, Hiff).
    apply String.eqb_neq in Hline.
    cbn [predict_physio_from_line negb]. rewrite Hline.
    destruct (physio_outcome rq) as [name| |p]; cbn [fst].
    + discriminate.
    + discriminate.
    + destruct (Qle_bool (1 # 2) p); discriminate.
Qed.

Lemma physio_follows_log_witness :
  fst (fused_stress_prediction
         (Some tt, Some tt, Some tt, Some tt) (Some tt, Some tt)
         (latest_line
            (perform_all sample_loads initial
               [Connect "COM3" None;
                Scan (ReadText "not json") "2025-01-01 10:00:00"]))
         {| audio_file := Some "a.wav"; audio_run := Returned (9 # 10)%Q;
            photo_path := None; facial_run := Raised "";
            physio_outcome := PhysioPrediction (1 # 10);
            survey_answered := true; survey_run := Returned (8 # 10)%Q |})
  = fused_score
      [predict_audio true (Some "a.wav") (Returned (9 # 10)%Q);
       predict_facial true None (Raised "");
       predict_dass21 true true (Returned (8 # 10)%Q)].
Proof.
  apply (proj1 (physio_follows_log sample_loads
                  [Connect "COM3" None;
                   Scan (ReadText "not json") "2025-01-01 10:00:00"]
                  (Some tt) (Some tt) (Some tt) (Some tt) (Some tt) (Some tt)
                  {| audio_file := Some "a.wav";
                     audio_run := Returned (9 # 10)%Q;
                     photo_path := None; facial_run := Raised "";
                     physio_outcome := PhysioPrediction (1 # 10);
                     survey_answered := true;
                     survey_run := Returned (8 # 10)%Q |})).
  reflexivity.
Defined.

End SessionRuns.

(** ** The time a discovery takes *)

Module DiscoveryDelay.
Import Discovery.

Lemma sleeps_app (l l' : list step) : sleeps (l ++ l') = (sleeps l + sleeps l')%nat.
Proof. unfold sleeps. now rewrite List.filter_app, length_app. Qed.

Lemma sleeps_probe_loop (world : string -> port_behaviour) (ports : list string) :
  sleeps (probe_loop world ports)
  = length (List.filter (fun p => opens (world p))
              (probed (probe_loop world ports)))
  /\ (length (probed (probe_loop world ports)) <= length ports)%nat.
Proof.
  induction ports as [|p ports [IH1 IH2]]; [split; [reflexivity | cbn; lia]|].
  rewrite DiscoveryFacts.probed_probe_loop_cons.
  cbn [probe_loop]. change (testing p :: ?l) with ([testing p] ++ l)%list.
  rewrite !sleeps_app. unfold handshake.
  destruct (world p) as [| | |text] eqn:Hp;
    cbn [raises answers_pong List.filter length]; rewrite Hp; cbn [opens].
  - change (skipping p :: ?l) with ([skipping p] ++ l)%list.
    rewrite sleeps_app. split; [exact IH1 | lia].
  - change (skipping p :: ?l) with ([skipping p] ++ l)%list.
    rewrite sleeps_app. cbn [length]. split; [now rewrite <- IH1 | lia].
  - change (skipping p :: ?l) with ([skipping p] ++ l)%list.
    rewrite sleeps_app. cbn [length]. split; [now rewrite <- IH1 | lia].
  - destruct (String.eqb (Text.strip text) "PONG").
    + split; [reflexivity | cbn [length]; lia].
    + cbn [length]. split; [now rewrite <- IH1 | lia].
Qed.

(** X23: a run waits for the settle delay once for every port it managed
    to open and never otherwise, so at most once per listed port. *)
Theorem auto_detect_settle_delays (world : string -> port_behaviour)
    (ports : list string) :
  let r := auto_detect_esp32_port world ports in
  sleeps (steps r)
  = length (List.filter (fun p => opens (world p)) (probed (steps r)))
  /\ (sleeps (steps r) <= length ports)%nat.
Proof.
  destruct ports as [|q ports]; [split; [reflexivity | cbn; lia]|].
  cbv zeta. rewrite DiscoveryRuns.steps_nonempty by discriminate.
  destruct (sleeps_probe_loop world (q :: ports)) as [H1 H2].
  split; [exact H1|]. rewrite H1.
  pose proof (List.filter_length_le (fun p => opens (world p))
                (probed (probe_loop world (q :: ports)))). lia.
Qed.

End DiscoveryDelay.
